(** * Dataset synchronisation of the Covid19 dashboard

    A shallow embedding of [helpers/download.py]: the directory helper
    [create_dir], the fetch wrapper [download_csv] and the two entry points
    [update_contagions] and [update_vaccinations], together with the parts of
    [pathlib], [pandas] and [joblib] they rely on.

    The local file system and the list of URLs requested so far form the
    mutable world; the remote repositories, the clock and the logging level
    are read-only surroundings.  Python exceptions are results of a small
    state-and-exception monad: a raised exception keeps every change made to
    the world before it. *)

From Stdlib Require Import ZArith Ascii String.
From stdpp Require Import base tactics option list list_numbers gmap strings.

Local Open Scope Z_scope.

(** ** Python strings *)

Module Str.

Definition chars (s : string) : list ascii := list_ascii_of_string s.
Definition of_chars (l : list ascii) : string := string_of_list_ascii l.

Definition mem (c : ascii) (cs : string) : bool :=
  bool_decide (c ∈ chars cs).

Fixpoint strip_front (cs : string) (l : list ascii) : list ascii :=
  match l with
  | [] => []
  | c :: l' => if mem c cs then strip_front cs l' else l
  end.

(** [s.lstrip(cs)]: drop the leading characters that occur in [cs]. *)
Definition lstrip (cs s : string) : string :=
  of_chars (strip_front cs (chars s)).

(** [s.rstrip(cs)]: drop the trailing characters that occur in [cs]. *)
Definition rstrip (cs s : string) : string :=
  of_chars (reverse (strip_front cs (reverse (chars s)))).

(** [s[-n:]]: the last [n] characters, the whole string when it is shorter. *)
Definition suffix (n : nat) (s : string) : string :=
  of_chars (drop (length (chars s) - n)%nat (chars s)).

(** ["/".join(l)] *)
Definition join (sep : string) (l : list string) : string :=
  String.concat sep l.

End Str.

(** ** Timestamps and the calendar (pandas) *)

(** A [pd.Timestamp]: nanoseconds since the epoch, and whether the value
    carries a time zone (the repository only meets UTC ones). *)
Record Timestamp := mkTimestamp { value : Z; tz_aware : bool }.

Global Instance Timestamp_eq_dec : EqDecision Timestamp.
Proof. solve_decision. Defined.

Definition ns_per_day : Z := 86400000000000.

(** The bounds of the 64-bit nanosecond representation. *)
Definition Timestamp_min : Z := - 2 ^ 63 + 1.
Definition Timestamp_max : Z := 2 ^ 63 - 1.

Definition day_of (t : Timestamp) : Z := value t / ns_per_day.

Definition midnight (tz : bool) (day : Z) : Timestamp :=
  mkTimestamp (day * ns_per_day) tz.

(** [t.normalize()]: the time of day is set to midnight. *)
Definition normalize (t : Timestamp) : Timestamp :=
  midnight (tz_aware t) (day_of t).

(** A timestamp pandas can hold, and whose midnight it can hold too. *)
Definition in_bounds (t : Timestamp) : Prop :=
  Timestamp_min ≤ value (normalize t) ∧ value t ≤ Timestamp_max.

(** Year, month and day of a day number counted from 1970-01-01, in the
    proleptic Gregorian calendar: the conversion over 400-year eras that
    starts the year in March. *)
Record civil := mkCivil { year : Z; month : Z; mday : Z }.

Global Instance civil_eq_dec : EqDecision civil.
Proof. solve_decision. Defined.

Definition days_per_era : Z := 146097.

Definition civil_of_doe (era doe : Z) : civil :=
  let yoe := (doe - doe / 1460 + doe / 36524 - doe / 146096) / 365 in
  let doy := doe - (365 * yoe + yoe / 4 - yoe / 100) in
  let mp := (5 * doy + 2) / 153 in
  let d := doy - (153 * mp + 2) / 5 + 1 in
  let m := if mp <? 10 then mp + 3 else mp - 9 in
  mkCivil (yoe + era * 400 + (if m <=? 2 then 1 else 0)) m d.

Definition civil_from_days (z : Z) : civil :=
  let z := z + 719468 in
  civil_of_doe (z / days_per_era) (z mod days_per_era).

Definition days_from_civil (c : civil) : Z :=
  let y := year c - (if month c <=? 2 then 1 else 0) in
  let era := y / 400 in
  let yoe := y mod 400 in
  let mp := if 2 <? month c then month c - 3 else month c + 9 in
  let doy := (153 * mp + 2) / 5 + mday c - 1 in
  let doe := yoe * 365 + yoe / 4 - yoe / 100 + doy in
  era * days_per_era + doe - 719468.

(** The calendar as it is taught: leap years and the lengths of the months. *)
Definition is_leap (y : Z) : bool :=
  (y mod 4 =? 0) && (negb (y mod 100 =? 0) || (y mod 400 =? 0)).

Definition days_in_month (y m : Z) : Z :=
  if m =? 2 then (if is_leap y then 29 else 28)
  else if (m =? 4) || (m =? 6) || (m =? 9) || (m =? 11) then 30
  else 31.

Definition valid_civil (c : civil) : bool :=
  (1 <=? month c) && (month c <=? 12) &&
  (1 <=? mday c) && (mday c <=? days_in_month (year c) (month c)).

(** The day after a date. *)
Definition next_civil (c : civil) : civil :=
  if mday c <? days_in_month (year c) (month c)
  then mkCivil (year c) (month c) (mday c + 1)
  else if month c <? 12 then mkCivil (year c) (month c + 1) 1
  else mkCivil (year c + 1) 1 1.

(** *** Formatting and parsing of dates *)

Definition digit_char (n : Z) : ascii :=
  ascii_of_N (48 + Z.to_N (n mod 10)).

Definition digit_value (c : ascii) : option Z :=
  let n := Z.of_N (N_of_ascii c) in
  if (48 <=? n) && (n <=? 57) then Some (n - 48) else None.

(** The [w] lowest decimal digits of [n], zero padded. *)
Fixpoint digits (w : nat) (n : Z) : list ascii :=
  match w with
  | O => []
  | S w' => digits w' (n / 10) ++ [digit_char n]
  end.

Fixpoint number (acc : Z) (l : list ascii) : option Z :=
  match l with
  | [] => Some acc
  | c :: l' =>
      match digit_value c with
      | Some d => number (10 * acc + d) l'
      | None => None
      end
  end.

(** [t.strftime('%Y%m%d')]; the years of a timestamp have four digits. *)
Definition strftime_Ymd (t : Timestamp) : string :=
  let c := civil_from_days (day_of t) in
  Str.of_chars (digits 4 (year c) ++ digits 2 (month c) ++ digits 2 (mday c)).

(** [pd.Timestamp(s)] for a string of eight digits [YYYYMMDD]: the naive
    timestamp of that date at midnight; anything else is not a date. *)
Definition parse_Ymd (s : string) : option Timestamp :=
  let l := Str.chars s in
  if bool_decide (length l = 8%nat) then
    y ← number 0 (take 4 l);
    m ← number 0 (take 2 (drop 4 l));
    d ← number 0 (drop 6 l);
    let c := mkCivil y m d in
    if valid_civil c then Some (midnight false (days_from_civil c)) else None
  else None.

(** [pd.date_range(start, end, normalize=True)] with the daily frequency:
    the midnights from the day of [start] to the day of [end], both
    included; empty when [end] lies on an earlier day. *)
Definition date_range (start_date end_date : Timestamp) : list Timestamp :=
  midnight (tz_aware start_date) <$>
    seqZ (day_of start_date) (day_of end_date - day_of start_date + 1).


(** ** The world: local files, requests made, and the surroundings *)

(** A [pathlib.Path] as its [parts]; the empty path is the current directory. *)
Definition Path := list string.

Definition joinpath (dir : Path) (s : string) : Path := dir ++ [s].
Definition parent (p : Path) : Path := removelast p.

Definition DataFrame := list (list string).

(** The JSON document of the freshness marker: the timestamp under the key
    [ultimo_aggiornamento], [None] when the key is missing or does not
    hold a timestamp. *)
Record Marker := mkMarker { ultimo_aggiornamento : option Timestamp }.

Inductive content :=
  | Csv (df : DataFrame)
  | Json (doc : Marker).

Inductive node :=
  | Dir
  | File (c : content).

Record World := mkWorld {
  fs : gmap Path node;
  requests : list string
}.

Inductive exn :=
  | FileNotFoundError (p : Path)
  | FileExistsError (p : Path)
  | NotADirectoryError (p : Path)
  | IsADirectoryError (p : Path)
  | URLError (url : string)
  | HTTPError (url : string) (code : Z)
  | RuntimeError (url : string) (code : Z)
  | JSONDecodeError (p : Path)
  | KeyError
  | ValueError
  | IndexError
  | TypeError.

Inductive res (A : Type) :=
  | Ret (a : A)
  | Raise (e : exn).
Arguments Ret {A} a.
Arguments Raise {A} e.

(** What a remote location answers. *)
Inductive response (A : Type) :=
  | Found (a : A)
  | HttpFailure (code : Z)
  | Unreachable.
Arguments Found {A} a.
Arguments HttpFailure {A} code.
Arguments Unreachable {A}.

Record Env := mkEnv {
  remote_csv : string → response DataFrame;
  remote_json : string → response Marker;
  (** [pd.Timestamp.now()], a naive timestamp, as nanoseconds *)
  now : Z;
  (** [getLogger().level == logging.DEBUG] *)
  debug : bool;
  (** the order in which a pool of workers completes the calls it is given *)
  pool_order : list Path → list Path
}.

(** Computations on the world that return or raise; what was done before an
    exception stays done. *)
Definition M (A : Type) : Type := World → World * res A.

Global Instance M_ret : MRet M := λ A a w, (w, Ret a).
Global Instance M_bind : MBind M := λ A B f m w,
  match m w with
  | (w', Ret a) => f a w'
  | (w', Raise e) => (w', Raise e)
  end.

Definition raise {A} (e : exn) : M A := λ w, (w, Raise e).
Definition get_fs : M (gmap Path node) := λ w, (w, Ret (fs w)).
Definition put_fs (f : gmap Path node) : M unit :=
  λ w, (mkWorld f (requests w), Ret tt).
Definition request (url : string) : M unit :=
  λ w, (mkWorld (fs w) (requests w ++ [url]), Ret tt).

(** *** The file system *)

Definition stat (f : gmap Path node) (p : Path) : option node :=
  match p with
  | [] => Some Dir
  | _ => f !! p
  end.

(** [p.exists()] *)
Definition exists_ (f : gmap Path node) (p : Path) : bool :=
  bool_decide (is_Some (stat f p)).

(** [p.mkdir()], without [parents] and without [exist_ok]. *)
Definition mkdir (p : Path) : M unit :=
  f ← get_fs;
  if exists_ f p then raise (FileExistsError p)
  else match stat f (parent p) with
       | Some Dir => put_fs (<[p := Dir]> f)
       | Some (File _) => raise (NotADirectoryError p)
       | None => raise (FileNotFoundError p)
       end.

(** [p.open("w")] followed by writing [c]: the file is created or replaced. *)
Definition write_file (p : Path) (c : content) : M unit :=
  f ← get_fs;
  match stat f (parent p) with
  | Some Dir =>
      match stat f p with
      | Some Dir => raise (IsADirectoryError p)
      | _ => put_fs (<[p := File c]> f)
      end
  | Some (File _) => raise (NotADirectoryError p)
  | None => raise (FileNotFoundError p)
  end.

(** [json.load(p.open())] *)
Definition read_json (p : Path) : M Marker :=
  f ← get_fs;
  match stat f p with
  | Some (File (Json doc)) => mret doc
  | Some (File (Csv _)) => raise (JSONDecodeError p)
  | Some Dir => raise (IsADirectoryError p)
  | None => raise (FileNotFoundError p)
  end.

(** [pd.Timestamp(doc["ultimo_aggiornamento"])] *)
Definition marker_timestamp (doc : Marker) : M Timestamp :=
  match ultimo_aggiornamento doc with
  | Some t => mret t
  | None => raise KeyError
  end.

(** [a <= b] on timestamps: a naive one and an aware one do not compare. *)
Definition Timestamp_le (a b : Timestamp) : M bool :=
  if bool_decide (tz_aware a = tz_aware b) then mret (value a <=? value b)
  else raise TypeError.

(** [l.remove(x)]: the first occurrence goes, a missing one raises. *)
Fixpoint list_remove (x : Path) (l : list Path) : option (list Path) :=
  match l with
  | [] => None
  | y :: l' => if decide (x = y) then Some l' else (y ::.) <$> list_remove x l'
  end.

(** [for x in xs: l.remove(x)] *)
Fixpoint remove_each (xs l : list Path) : M (list Path) :=
  match xs with
  | [] => mret l
  | x :: xs' =>
      match list_remove x l with
      | Some l' => remove_each xs' l'
      | None => raise ValueError
      end
  end.

(** [jb.Parallel(n_jobs)(jb.delayed(update)(file) for file in files)].
    With one job the calls run in the order of [files] and the first
    exception ends the run.  With a pool of workers the calls complete in
    the order the pool chooses, each call taken as one step on the world,
    and the first exception seen ends the run. *)
Fixpoint run_calls (update : Path → M unit) (files : list Path) : M unit :=
  match files with
  | [] => mret tt
  | file :: files' => update file;; run_calls update files'
  end.

Definition Parallel (env : Env) (n_jobs : Z) (update : Path → M unit)
    (files : list Path) : M unit :=
  if n_jobs =? 1 then run_calls update files
  else run_calls update (pool_order env files).

(** ** [helpers/download.py] *)

(** [create_dir(dir)] *)
Definition create_dir (dir : Path) : M unit :=
  f ← get_fs;
  if negb (exists_ f dir) then mkdir dir
  else mret tt.

(** [download_csv(url, raise_error)]: the table, or [None] for the [False]
    returned after a logged HTTP error.  Only [HTTPError] is caught. *)
Definition download_csv (env : Env) (url : string) (raise_error : bool)
    : M (option DataFrame) :=
  request url;;
  match remote_csv env url with
  | Found df => mret (Some df)
  | HttpFailure code =>
      if raise_error then raise (RuntimeError url code)
      else mret None
  | Unreachable => raise (URLError url)
  end.

(** [p.parts[-1]] *)
Definition name (p : Path) : M string :=
  match last p with
  | Some s => mret s
  | None => raise IndexError
  end.

(** [p.parts[-2:]] *)
Definition last_two (p : Path) : list string :=
  drop (length p - 2)%nat p.

Definition Timestamp_now (env : Env) : Timestamp := mkTimestamp (now env) false.

Module Contagions.

Definition remote : string :=
  "https://raw.githubusercontent.com/pcm-dpc/COVID-19/master".

Definition subdir_names : list string :=
  ["dati-andamento-nazionale"; "dati-regioni"]%string.

(** The name of the file of [date] in [subdir]. *)
Definition file_name (subdir : Path) (date : Timestamp) : M string :=
  s ← name subdir;
  mret ("dpc-covid19-ita-" +:+ Str.lstrip "-" (Str.lstrip "dati" s)
        +:+ "-" +:+ strftime_Ymd date +:+ ".csv").

Definition file_of (subdir : Path) (date : Timestamp) : M Path :=
  s ← file_name subdir date;
  mret (joinpath subdir s).

(** The comprehension over the dates, and for each date over [subdirs]. *)
Fixpoint files_of_date (subdirs : list Path) (date : Timestamp)
    : M (list Path) :=
  match subdirs with
  | [] => mret []
  | subdir :: subdirs' =>
      file ← file_of subdir date;
      files ← files_of_date subdirs' date;
      mret (file :: files)
  end.

Fixpoint expected_files (subdirs : list Path) (dates : list Timestamp)
    : M (list Path) :=
  match dates with
  | [] => mret []
  | date :: dates' =>
      files ← files_of_date subdirs date;
      files' ← expected_files subdirs dates';
      mret (files ++ files')
  end.

(** The inner function [update(file)]. *)
Definition update (env : Env) (file : Path) : M unit :=
  let url := Str.join "/" (remote :: last_two file) in
  s ← name file;
  match parse_Ymd (Str.suffix 8 (Str.rstrip ".csv" s)) with
  | None => raise ValueError
  | Some date =>
      let today := normalize (Timestamp_now env) in
      df ← download_csv env url (bool_decide (date ≠ today));
      match df with
      | Some df => write_file file (Csv df)
      | None => mret tt
      end
  end.

(** The work list: the expected files, without those that exist unless
    [force] is set. *)
Definition work_list (force : bool) (files : list Path) : M (list Path) :=
  f ← get_fs;
  let existing_files := filter (λ file, exists_ f file = true) files in
  if negb force then remove_each existing_files files
  else mret files.

(** [update_contagions(dir, start_date, end_date, force)] *)
Definition update_contagions (env : Env) (dir : Path)
    (start_date : Timestamp) (end_date : option Timestamp) (force : bool)
    : M unit :=
  let end_date := default (Timestamp_now env) end_date in
  create_dir dir;;
  let subdirs := joinpath dir <$> subdir_names in
  mapM create_dir subdirs;;
  files ← expected_files subdirs (date_range start_date end_date);
  files ← work_list force files;
  Parallel env (if debug env then 1 else -1) (update env) files.

End Contagions.

Module Vaccinations.

Definition remote : string :=
  "https://raw.githubusercontent.com/italia/" +:+
  "covid19-opendata-vaccini/master/dati".

Definition file_names : list string :=
  ["consegne-vaccini-latest.csv";
   "somministrazioni-vaccini-latest.csv";
   "platea.csv";
   "platea-dose-addizionale-booster.csv"]%string.

Definition last_update_name : string := "last-update-dataset.json".

(** The inner function [update(file)]; [download_csv] is asked to raise, so
    a table always comes back. *)
Definition update (env : Env) (file : Path) : M unit :=
  s ← name file;
  let url := Str.join "/" [remote; s] in
  df ← download_csv env url true;
  match df with
  | Some df => write_file file (Csv df)
  | None => raise TypeError
  end.

(** The local timestamp: the one of the marker file, or the epoch. *)
Definition local_timestamp (last_update_file : Path) : M Timestamp :=
  f ← get_fs;
  if exists_ f last_update_file then
    doc ← read_json last_update_file;
    marker_timestamp doc
  else mret (mkTimestamp 0 true).

(** [json.load(urlopen(url))] *)
Definition fetch_json (env : Env) (url : string) : M Marker :=
  request url;;
  match remote_json env url with
  | Found doc => mret doc
  | HttpFailure code => raise (HTTPError url code)
  | Unreachable => raise (URLError url)
  end.

(** [not force and t_remote <= t_local] *)
Definition no_updates (force : bool) (t_remote t_local : Timestamp)
    : M bool :=
  if negb force then Timestamp_le t_remote t_local
  else mret false.

Definition work_list (force : bool) (files : list Path) : M (list Path) :=
  f ← get_fs;
  let existing_files := filter (λ file, exists_ f file = true) files in
  if negb force then remove_each existing_files files
  else mret files.

(** [update_vaccinations(dir, force)] *)
Definition update_vaccinations (env : Env) (dir : Path) (force : bool)
    : M unit :=
  create_dir dir;;
  let last_update_file := joinpath dir last_update_name in
  let files := joinpath dir <$> file_names in
  t_local ← local_timestamp last_update_file;
  s ← name last_update_file;
  last_update_remote ← fetch_json env (Str.join "/" [remote; s]);
  t_remote ← marker_timestamp last_update_remote;
  stop ← no_updates force t_remote t_local;
  if (stop : bool) then mret tt
  else
    write_file last_update_file (Json last_update_remote);;
    files ← work_list force files;
    Parallel env (if debug env then 1 else -1) (update env) files.

End Vaccinations.

(** * Properties *)

(** ** The monad *)

Section monad.
Context {A B : Type}.
Implicit Types (m : M A) (f : A → M B).

Lemma bind_unfold m f w :
  (m ≫= f) w =
    match m w with
    | (w', Ret a) => f a w'
    | (w', Raise e) => (w', Raise e)
    end.
Proof. reflexivity. Qed.

Lemma bind_Ret m f w w' a : m w = (w', Ret a) → (m ≫= f) w = f a w'.
Proof. intros H. rewrite bind_unfold, H. reflexivity. Qed.

Lemma bind_Raise m f w w' e :
  m w = (w', Raise e) → (m ≫= f) w = (w', Raise e).
Proof. intros H. rewrite bind_unfold, H. reflexivity. Qed.

Lemma bind_inv m f w w2 r :
  (m ≫= f) w = (w2, r) →
  (∃ w1 a, m w = (w1, Ret a) ∧ f a w1 = (w2, r)) ∨
  (∃ e, m w = (w2, Raise e) ∧ r = Raise e).
Proof.
  rewrite bind_unfold. destruct (m w) as [w1 [a|e]]; intros H.
  - left. eauto.
  - right. inversion H; subst. eauto.
Qed.
End monad.

(** ** The file system *)

Lemma exists_true f p : exists_ f p = true ↔ is_Some (stat f p).
Proof. unfold exists_. apply bool_decide_eq_true. Qed.

Lemma exists_false f p : exists_ f p = false ↔ stat f p = None.
Proof.
  unfold exists_. rewrite bool_decide_eq_false, <- eq_None_not_Some. done.
Qed.

Lemma stat_lookup f p : p ≠ [] → stat f p = f !! p.
Proof. destruct p; done. Qed.

Lemma joinpath_not_nil dir s : joinpath dir s ≠ [].
Proof. unfold joinpath. destruct dir; done. Qed.

Lemma parent_joinpath dir s : parent (joinpath dir s) = dir.
Proof. unfold parent, joinpath. apply removelast_last. Qed.


Lemma joinpath_inj dir s1 s2 : joinpath dir s1 = joinpath dir s2 → s1 = s2.
Proof. unfold joinpath. intros H. by simplify_list_eq. Qed.

Lemma stat_insert f p q n :
  q ≠ [] → stat (<[p := n]> f) q = if decide (p = q) then Some n else stat f q.
Proof.
  intros Hq. rewrite !stat_lookup by done. apply lookup_insert.
Qed.

Lemma mkdir_inv p w w' r :
  mkdir p w = (w', r) →
  (r = Ret tt ∧ stat (fs w) p = None ∧ stat (fs w) (parent p) = Some Dir ∧
   w' = mkWorld (<[p := Dir]> (fs w)) (requests w)) ∨
  (w' = w ∧ ∃ e, r = Raise e ∧
   (∀ q, e = FileExistsError q → is_Some (stat (fs w) p)) ∧
   (stat (fs w) p = None → stat (fs w) (parent p) ≠ Some Dir)).
Proof.
  unfold mkdir. rewrite bind_unfold. simpl.
  destruct (exists_ (fs w) p) eqn:Hex.
  - intros [= <- <-]. right. split; [done|].
    eexists; split; [done|]. apply exists_true in Hex.
    split; [done|]. intros Hn. rewrite Hn in Hex. by destruct Hex.
  - apply exists_false in Hex.
    destruct (stat (fs w) (parent p)) as [[|c]|] eqn:Hpar.
    + intros [= <- <-]. left. done.
    + intros [= <- <-]. right. split; [done|]. eexists; split; [done|].
      split; [done|]. done.
    + intros [= <- <-]. right. split; [done|]. eexists; split; [done|].
      split; [done|]. done.
Qed.

Lemma create_dir_present dir w :
  exists_ (fs w) dir = true → create_dir dir w = (w, Ret tt).
Proof. intros H. unfold create_dir. rewrite bind_unfold. simpl. by rewrite H. Qed.

Lemma create_dir_absent dir w :
  exists_ (fs w) dir = false → create_dir dir w = mkdir dir w.
Proof. intros H. unfold create_dir. rewrite bind_unfold. simpl. by rewrite H. Qed.

(** What a successful [create_dir] leaves: the world as it was when the path
    existed, the path as a new directory otherwise. *)
Lemma create_dir_Ret dir w w' :
  create_dir dir w = (w', Ret tt) →
  requests w' = requests w ∧
  (fs w' = fs w ∧ is_Some (stat (fs w) dir) ∨
   fs w' = <[dir := Dir]> (fs w) ∧ stat (fs w) dir = None ∧
   stat (fs w) (parent dir) = Some Dir).
Proof.
  destruct (exists_ (fs w) dir) eqn:Hex.
  - rewrite create_dir_present by done. intros [= <-].
    split; [done|]. left. split; [done|]. by apply exists_true.
  - rewrite create_dir_absent by done. intros H.
    apply mkdir_inv in H as [(_ & Hn & Hp & ->)|(_ & e & [=] & _)].
    split; [done|]. right. done.
Qed.

Lemma create_dir_frame dir w w' r p :
  create_dir dir w = (w', r) → p ≠ dir → fs w' !! p = fs w !! p.
Proof.
  destruct (exists_ (fs w) dir) eqn:Hex.
  - rewrite create_dir_present by done. by intros [= <- <-].
  - rewrite create_dir_absent by done. intros H Hne.
    apply mkdir_inv in H as [(_ & _ & _ & ->)|(-> & _)]; [|done].
    simpl. by rewrite lookup_insert_ne.
Qed.

Lemma write_file_inv p c w w' r :
  write_file p c w = (w', r) →
  (r = Ret tt ∧ stat (fs w) (parent p) = Some Dir ∧ stat (fs w) p ≠ Some Dir ∧
   w' = mkWorld (<[p := File c]> (fs w)) (requests w)) ∨
  (w' = w ∧ ∃ e, r = Raise e ∧
   (stat (fs w) (parent p) ≠ Some Dir ∨ stat (fs w) p = Some Dir)).
Proof.
  unfold write_file. rewrite bind_unfold. simpl.
  destruct (stat (fs w) (parent p)) as [[|c']|] eqn:Hpar.
  - destruct (stat (fs w) p) as [[|c']|] eqn:Hp; intros [= <- <-].
    + right. eauto.
    + left. done.
    + left. done.
  - intros [= <- <-]. right. eauto.
  - intros [= <- <-]. right. eauto.
Qed.

Lemma write_file_ok p c w :
  stat (fs w) (parent p) = Some Dir → stat (fs w) p ≠ Some Dir →
  write_file p c w = (mkWorld (<[p := File c]> (fs w)) (requests w), Ret tt).
Proof.
  intros Hpar Hp. unfold write_file. rewrite bind_unfold. simpl. rewrite Hpar.
  destruct (stat (fs w) p) as [[|c']|]; done.
Qed.

Lemma write_file_frame p c w w' r q :
  write_file p c w = (w', r) → q ≠ p → fs w' !! q = fs w !! q.
Proof.
  intros H Hne. apply write_file_inv in H as [(_ & _ & _ & ->)|(-> & _)];
    [|done].
  simpl. by rewrite lookup_insert_ne.
Qed.

Lemma write_file_requests p c w w' r :
  write_file p c w = (w', r) → requests w' = requests w.
Proof.
  intros H. by apply write_file_inv in H as [(_ & _ & _ & ->)|(-> & _)].
Qed.

(** ** Removing the existing files from the work list *)

Lemma remove_each_cons_ne x xs l w :
  x ∉ xs →
  remove_each xs (x :: l) w =
    match remove_each xs l w with
    | (w', Ret l') => (w', Ret (x :: l'))
    | (w', Raise e) => (w', Raise e)
    end.
Proof.
  revert l. induction xs as [|y xs IH]; intros l Hx; [done|].
  apply not_elem_of_cons in Hx as [Hxy Hx]. simpl.
  destruct (decide (y = x)) as [->|_]; [done|].
  destruct (list_remove y l) as [l'|]; simpl; [|done]. by apply IH.
Qed.

(** Removing the files that exist, one [remove] each, leaves the files that
    do not exist, in their order; duplicates make no difference. *)
Lemma remove_each_filter (P : Path → Prop) `{!∀ x, Decision (P x)} l w :
  remove_each (filter P l) l w = (w, Ret (filter (λ x, ¬ P x) l)).
Proof.
  induction l as [|x l IH]; [done|].
  rewrite !filter_cons. destruct (decide (P x)) as [HP|HP].
  - rewrite decide_False by tauto. simpl. rewrite decide_True by done. done.
  - rewrite decide_True by done. rewrite remove_each_cons_ne, IH; [done|].
    intros [? _]%list_elem_of_filter. done.
Qed.

(** The files of a work list that are left to fetch. *)
Definition absent_files (force : bool) (f : gmap Path node)
    (files : list Path) : list Path :=
  if force then files else filter (λ file, ¬ exists_ f file = true) files.

Lemma work_list_spec force files w :
  Contagions.work_list force files w
  = (w, Ret (absent_files force (fs w) files)).
Proof.
  unfold Contagions.work_list, absent_files. rewrite bind_unfold. simpl.
  destruct force; simpl; [done|]. apply remove_each_filter.
Qed.

Lemma vacc_work_list force files w :
  Vaccinations.work_list force files w
  = (w, Ret (absent_files force (fs w) files)).
Proof. apply work_list_spec. Qed.

Lemma elem_of_absent_files force f files file :
  file ∈ absent_files force f files ↔
  file ∈ files ∧ (force = false → exists_ f file = false).
Proof.
  unfold absent_files. destruct force.
  - split; [intros ?; split; [done|discriminate]|by intros [? _]].
  - rewrite list_elem_of_filter, not_true_iff_false.
    split; intros [? ?]; split; auto.
Qed.

(** The [fair] pool runs the calls it was given, each once. *)
Definition fair_pool (env : Env) : Prop := ∀ l, pool_order env l ≡ₚ l.

(** The order in which [Parallel] makes the calls. *)
Definition call_order (env : Env) (files : list Path) : list Path :=
  if debug env then files else pool_order env files.

Lemma Parallel_call_order env u files :
  Parallel env (if debug env then 1 else -1) u files
  = run_calls u (call_order env files).
Proof. unfold Parallel, call_order. by destruct (debug env). Qed.

Lemma call_order_perm env files :
  fair_pool env → call_order env files ≡ₚ files.
Proof. intros H. unfold call_order. destruct (debug env); [done|apply H]. Qed.

Lemma call_order_nil env : fair_pool env → call_order env [] = [].
Proof. intros H. apply Permutation_nil_r. by apply call_order_perm. Qed.

(** A call that writes at most the file it is given. *)
Definition writes_own (u : Path → M unit) : Prop :=
  ∀ file w w' r p, u file w = (w', r) → p ≠ file → fs w' !! p = fs w !! p.

Lemma run_calls_frame u files w w' r p :
  writes_own u → run_calls u files w = (w', r) → p ∉ files →
  fs w' !! p = fs w !! p.
Proof.
  intros Hu. revert w. induction files as [|file files IH]; intros w H Hp.
  - by injection H as <- <-.
  - apply not_elem_of_cons in Hp as [Hne Hp]. simpl in H.
    apply bind_inv in H as [(w1 & [] & H1 & H2)|(e & H1 & _)].
    + rewrite (IH _ H2 Hp). by eapply Hu.
    + by eapply Hu.
Qed.

Lemma download_csv_inv env url raise_error w w' r :
  download_csv env url raise_error w = (w', r) →
  w' = mkWorld (fs w) (requests w ++ [url]) ∧
  r = match remote_csv env url with
      | Found df => Ret (Some df)
      | HttpFailure code =>
          if raise_error then Raise (RuntimeError url code) else Ret None
      | Unreachable => Raise (URLError url)
      end.
Proof.
  unfold download_csv. rewrite bind_unfold. simpl.
  destruct (remote_csv env url); [| destruct raise_error |];
    by intros [= <- <-].
Qed.

(** ** The vaccinations path *)

Section vaccinations.
Import Vaccinations.
Variable env : Env.

Definition marker_file (dir : Path) : Path := joinpath dir last_update_name.
Definition marker_url : string := Str.join "/" [remote; last_update_name].
Definition data_files (dir : Path) : list Path := joinpath dir <$> file_names.

Lemma name_joinpath dir s w : name (joinpath dir s) w = (w, Ret s).
Proof. unfold name, joinpath. by rewrite last_snoc. Qed.


Lemma local_timestamp_world p w w' r :
  local_timestamp p w = (w', r) → w' = w.
Proof.
  unfold local_timestamp, read_json, marker_timestamp.
  rewrite bind_unfold. simpl. destruct (exists_ (fs w) p).
  - rewrite !bind_unfold. simpl.
    destruct (stat (fs w) p) as [[|[df|[[t|]]]]|]; by intros [= <- <-].
  - by intros [= <- <-].
Qed.



Lemma fetch_json_Found url doc w :
  remote_json env url = Found doc →
  fetch_json env url w = (mkWorld (fs w) (requests w ++ [url]), Ret doc).
Proof.
  intros H. unfold fetch_json. rewrite bind_unfold. simpl. by rewrite H.
Qed.

Lemma marker_timestamp_Some doc t w :
  ultimo_aggiornamento doc = Some t → marker_timestamp doc w = (w, Ret t).
Proof. intros H. unfold marker_timestamp. by rewrite H. Qed.

Lemma vacc_update_frame : writes_own (update env).
Proof.
  intros file w w' r p H Hne. unfold update in H.
  apply bind_inv in H as [(w1 & s & H1 & H)|(e & H1 & _)].
  - assert (w1 = w) as ->.
    { unfold name in H1. destruct (last file); by injection H1. }
    apply bind_inv in H as [(w2 & df & H2 & H)|(e & H2 & _)];
      apply download_csv_inv in H2 as [-> _]; [|done].
    destruct df as [df|]; [|by injection H as <- _].
    by apply (write_file_frame _ _ _ _ _ _ H).
  - unfold name in H1. destruct (last file); by injection H1 as <-.
Qed.

(** The steps after the freshness gate. *)
Definition sync (dir : Path) (force : bool) (doc : Marker) : M unit :=
  write_file (marker_file dir) (Json doc);;
  files ← work_list force (data_files dir);
  Parallel env (if debug env then 1 else -1) (update env) files.

(** A call that obtains both timestamps comes to the gate with the world
    changed by the directory and by the request of the remote marker. *)
Lemma update_vaccinations_gate dir force w w1 t_local doc t_remote :
  create_dir dir w = (w1, Ret tt) →
  local_timestamp (marker_file dir) w1 = (w1, Ret t_local) →
  remote_json env marker_url = Found doc →
  ultimo_aggiornamento doc = Some t_remote →
  update_vaccinations env dir force w =
    (stop ← no_updates force t_remote t_local;
     if (stop : bool) then mret tt else sync dir force doc)
    (mkWorld (fs w1) (requests w1 ++ [marker_url])).
Proof.
  intros Hdir Hloc Hrem Ht. unfold update_vaccinations, sync.
  unfold marker_file, data_files, marker_url in *.
  rewrite (bind_Ret _ _ _ _ _ Hdir).
  rewrite (bind_Ret _ _ _ _ _ Hloc).
  rewrite (bind_Ret _ _ _ _ _ (name_joinpath _ _ _)).
  rewrite (bind_Ret _ _ _ _ _ (fetch_json_Found _ _ _ Hrem)).
  rewrite (bind_Ret _ _ _ _ _ (marker_timestamp_Some _ _ _ Ht)).
  reflexivity.
Qed.


End vaccinations.

(** ** Worlds and surroundings to run the functions on *)

Definition empty_world : World := mkWorld ∅ [].

Definition sample_table : DataFrame := [["data"; "totale"]; ["2021-01-30"; "7"]]%string.

(** A world holding only the directory [data]. *)
Definition staged_world : World := mkWorld {[ ["data"%string] := Dir ]} [].

(** ** [create_dir] *)

(** C7, as the code has it: [create_dir] leaves an existing path alone and
    returns; it makes the directory when its parent is a directory; when the
    parent is missing or is a file it raises and makes nothing, so no parent
    is ever created; in no case does it raise because the path exists. *)
Theorem create_dir_makes_leaf_only dir w w' r :
  create_dir dir w = (w', r) →
  requests w' = requests w ∧
  (is_Some (stat (fs w) dir) → w' = w ∧ r = Ret tt) ∧
  (stat (fs w) dir = None → stat (fs w) (parent dir) = Some Dir →
   r = Ret tt ∧ fs w' = <[dir := Dir]> (fs w)) ∧
  (stat (fs w) dir = None → stat (fs w) (parent dir) ≠ Some Dir →
   w' = w ∧ ∃ e, r = Raise e) ∧
  (∀ p, r ≠ Raise (FileExistsError p)).
Proof.
  intros H.
  assert (∀ n : node, stat (fs w) dir = Some n → stat (fs w) dir = None → False)
    as Hno by (intros n -> [=]).
  destruct (exists_ (fs w) dir) eqn:Hex.
  - rewrite create_dir_present in H by done. injection H as <- <-.
    apply exists_true in Hex as [n Hn]. split_and!; try done.
    + intros Hs. by destruct (Hno _ Hn Hs).
    + intros Hs. by destruct (Hno _ Hn Hs).
  - rewrite create_dir_absent in H by done. apply exists_false in Hex.
    apply mkdir_inv in H as [(-> & _ & Hp & ->)|(-> & e & -> & He & Hp)].
    + split_and!; try done.
      intros [n Hn]. by destruct (Hno _ Hn Hex).
    + split_and!; try done.
      * intros [n Hn]. by destruct (Hno _ Hn Hex).
      * intros _ Hpar. by destruct (Hp Hex).
      * eauto.
      * intros p [= ->]. destruct (He _ eq_refl) as [n Hn].
        by destruct (Hno _ Hn Hex).
Qed.

Lemma create_dir_makes_leaf_only_witness :
  requests staged_world = requests empty_world ∧
  (is_Some (stat (fs empty_world) ["data"%string]) →
   staged_world = empty_world ∧ Ret tt = Ret tt) ∧
  (stat (fs empty_world) ["data"%string] = None →
   stat (fs empty_world) (parent ["data"%string]) = Some Dir →
   Ret tt = Ret tt ∧ fs staged_world = <[ ["data"%string] := Dir]> (fs empty_world)) ∧
  (stat (fs empty_world) ["data"%string] = None →
   stat (fs empty_world) (parent ["data"%string]) ≠ Some Dir →
   staged_world = empty_world ∧ ∃ e, Ret tt = Raise e) ∧
  (∀ p, Ret tt ≠ Raise (FileExistsError p)).
Proof.
  apply (create_dir_makes_leaf_only ["data"%string] empty_world staged_world
           (Ret tt)).
  reflexivity.
Defined.

(** C7, the claim as it is written fails: in an empty tree [create_dir] of
    [a/b] raises [FileNotFoundError] and creates neither [a] nor [a/b]. *)
Lemma create_dir_missing_parent :
  create_dir ["a"; "b"]%string empty_world
  = (empty_world, Raise (FileNotFoundError ["a"; "b"]%string)).
Proof. reflexivity. Qed.

(** ** [update_vaccinations] *)

Section vaccinations_claims.
Import Vaccinations.
Variable env : Env.

Lemma local_timestamp_not_dir p w t :
  local_timestamp p w = (w, Ret t) → stat (fs w) p ≠ Some Dir.
Proof.
  unfold local_timestamp, read_json. rewrite bind_unfold. simpl.
  destruct (exists_ (fs w) p) eqn:Hex.
  - rewrite !bind_unfold. simpl.
    destruct (stat (fs w) p) as [[|c]|]; [discriminate|done|done].
  - intros _. apply exists_false in Hex. by rewrite Hex.
Qed.

Lemma no_updates_le t_remote t_local w :
  tz_aware t_remote = tz_aware t_local →
  no_updates false t_remote t_local w
  = (w, Ret (value t_remote <=? value t_local)).
Proof.
  intros Htz. unfold no_updates, Timestamp_le. simpl.
  by rewrite bool_decide_eq_true_2.
Qed.

Lemma gate_open force t_remote t_local w :
  force = true ∨
    (tz_aware t_remote = tz_aware t_local ∧ value t_local < value t_remote) →
  no_updates force t_remote t_local w = (w, Ret false).
Proof.
  intros [->|[Htz Hlt]]; [done|]. destruct force; [done|].
  rewrite no_updates_le by done. do 2 f_equal. lia.
Qed.




(** C10: with [force] unset, a later remote timestamp and the four files
    present, nothing is fetched besides the remote marker and no data file
    is written, while the marker file takes the remote document. *)
Theorem update_vaccinations_stale_data dir w t_local doc t_remote :
  stat (fs w) dir = Some Dir →
  (∀ file, file ∈ data_files dir → exists_ (fs w) file = true) →
  local_timestamp (marker_file dir) w = (w, Ret t_local) →
  remote_json env marker_url = Found doc →
  ultimo_aggiornamento doc = Some t_remote →
  tz_aware t_remote = tz_aware t_local →
  value t_local < value t_remote →
  fair_pool env →
  update_vaccinations env dir false w
  = (mkWorld (<[marker_file dir := File (Json doc)]> (fs w))
       (requests w ++ [marker_url]), Ret tt).
Proof.
  intros Hd Hfiles Hloc Hrem Ht Htz Hlt Hfair.
  assert (create_dir dir w = (w, Ret tt)) as Hdir.
  { apply create_dir_present, exists_true. rewrite Hd. eauto. }
  rewrite (update_vaccinations_gate env _ _ _ _ _ _ _ Hdir Hloc Hrem Ht).
  rewrite (bind_Ret _ _ _ _ _ (gate_open false _ _ _ (or_intror (conj Htz Hlt)))).
  unfold sync.
  assert (stat (fs w) (parent (marker_file dir)) = Some Dir) as Hpar
    by (by unfold marker_file; rewrite parent_joinpath).
  pose proof (local_timestamp_not_dir _ _ _ Hloc) as Hm.
  rewrite (bind_Ret _ _ _ _ _
    (write_file_ok _ (Json doc) (mkWorld (fs w) _) Hpar Hm)).
  rewrite (bind_Ret _ _ _ _ _ (vacc_work_list _ _ _)).
  rewrite Parallel_call_order.
  match goal with |- context [absent_files false ?f ?l] =>
    replace (absent_files false f l) with (@nil Path) end.
  { by rewrite call_order_nil. }
  symmetry. apply elem_of_nil_inv. intros file.
  rewrite elem_of_absent_files. intros [Hin Hex]. specialize (Hex eq_refl).
  apply exists_false in Hex. simpl in Hex.
  assert (file ≠ []) as Hne.
  { apply list_elem_of_fmap in Hin as (s & -> & _). apply joinpath_not_nil. }
  rewrite stat_insert in Hex by done.
  case_decide; [discriminate|].
  apply Hfiles in Hin. apply exists_true in Hin as [n Hn]. congruence.
Qed.

End vaccinations_claims.

(** *** Runs of [update_vaccinations] *)

(** The remote marker of 2021-03-24 15:13:32 UTC and an older one. *)
Definition new_marker : Marker :=
  mkMarker (Some (mkTimestamp 1616598812000000000 true)).
Definition old_marker : Marker :=
  mkMarker (Some (mkTimestamp 1609459200000000000 true)).

(** A remote that has the marker [new_marker] and every table but the one
    at [missing], which answers 404; the pool completes its calls in the
    reverse order. *)
Definition vacc_env (missing : string) (debug : bool) : Env :=
  mkEnv (λ url, if String.eqb url missing then HttpFailure 404
                else Found sample_table)
        (λ _, Found new_marker) 1616600000000000000 debug reverse.

Definition platea_url : string :=
  Str.join "/" [Vaccinations.remote; "platea.csv"%string].

(** The directory [data] after an earlier sync: the four files and the
    marker [old_marker]. *)
Definition synced_world : World :=
  mkWorld (<[marker_file ["data"%string] := File (Json old_marker)]>
             (list_to_map ((λ p, (p, File (Csv []))) <$> data_files ["data"%string])
              ∪ {[ ["data"%string] := Dir ]}))
          [].

Lemma vacc_env_fair missing debug : fair_pool (vacc_env missing debug).
Proof. intros l. apply reverse_Permutation. Qed.





Lemma update_vaccinations_stale_data_witness :
  Vaccinations.update_vaccinations (vacc_env "" false) ["data"%string] false
    synced_world
  = (mkWorld (<[marker_file ["data"%string] := File (Json new_marker)]>
                (fs synced_world))
       (requests synced_world ++ [marker_url]), Ret tt).
Proof.
  apply (update_vaccinations_stale_data (vacc_env "" false) ["data"%string]
           synced_world (mkTimestamp 1609459200000000000 true) new_marker
           (mkTimestamp 1616598812000000000 true));
    [reflexivity| |reflexivity|reflexivity|reflexivity|reflexivity
    |simpl; lia|apply vacc_env_fair].
  intros file Hin. unfold data_files, Vaccinations.file_names in Hin.
  simpl in Hin.
  repeat (apply elem_of_cons in Hin as [->|Hin]; [reflexivity|]).
  by apply elem_of_nil in Hin.
Defined.

(** ** The calendar *)

(** A date moved by [e] eras of 400 years. *)
Definition shift_era (e : Z) (c : civil) : civil :=
  mkCivil (year c + 400 * e) (month c) (mday c).

Definition civil_eqb (a b : civil) : bool :=
  (year a =? year b) && (month a =? month b) && (mday a =? mday b).

(** What is checked for each day of an era: the date is one of the
    calendar, its year lies in the era, the way back gives the day, and the
    next day has the next date. *)
Definition doe_ok (doe : Z) : bool :=
  let c := civil_of_doe 0 doe in
  valid_civil c && (0 <=? year c) && (year c <=? 400) &&
  (days_from_civil c =? doe - 719468) &&
  civil_eqb (next_civil c)
    (if doe + 1 <? days_per_era then civil_of_doe 0 (doe + 1)
     else civil_of_doe 1 0).

(** [doe_ok] on the [n] days from [z] on. *)
Fixpoint all_ok (n : nat) (z : Z) : bool :=
  match n with
  | O => true
  | S n' => doe_ok z && all_ok n' (z + 1)
  end.

Lemma all_ok_true n z k :
  all_ok n z = true → z ≤ k < z + Z.of_nat n → doe_ok k = true.
Proof.
  revert z. induction n as [|n IH]; intros z H Hk; [lia|].
  simpl in H. apply andb_prop in H as [H1 H2].
  destruct (decide (k = z)) as [->|Hne]; [done|].
  apply (IH (z + 1)); [done|lia].
Qed.

Lemma era_checked : all_ok (Z.to_nat days_per_era) 0 = true.
Proof. vm_cast_no_check (eq_refl true). Qed.

Lemma doe_ok_true doe : 0 ≤ doe < days_per_era → doe_ok doe = true.
Proof.
  intros H. apply (all_ok_true _ _ _ era_checked).
  rewrite Z2Nat.id by done. lia.
Qed.

Lemma civil_eqb_eq a b : civil_eqb a b = true → a = b.
Proof.
  destruct a, b. unfold civil_eqb. simpl.
  rewrite !andb_true_iff, !Z.eqb_eq. intros [[-> ->] ->]. done.
Qed.

Lemma doe_facts doe :
  0 ≤ doe < days_per_era →
  valid_civil (civil_of_doe 0 doe) = true ∧
  0 ≤ year (civil_of_doe 0 doe) ≤ 400 ∧
  days_from_civil (civil_of_doe 0 doe) = doe - 719468 ∧
  next_civil (civil_of_doe 0 doe)
  = (if doe + 1 <? days_per_era then civil_of_doe 0 (doe + 1)
     else civil_of_doe 1 0).
Proof.
  intros H. pose proof (doe_ok_true _ H) as Hok. unfold doe_ok in Hok.
  cbv zeta in Hok. rewrite !andb_true_iff in Hok.
  destruct Hok as [[[[Hv Hy0] Hy1] Hd] Hn].
  apply civil_eqb_eq in Hn. split_and!; [done|lia|lia|lia|done].
Qed.

Lemma civil_of_doe_shift era doe :
  civil_of_doe era doe = shift_era era (civil_of_doe 0 doe).
Proof. unfold civil_of_doe, shift_era. simpl. f_equal. lia. Qed.

Lemma is_leap_shift e y : is_leap (y + 400 * e) = is_leap y.
Proof.
  unfold is_leap.
  replace (y + 400 * e) with (y + (100 * e) * 4) at 1 by lia.
  replace (y + 400 * e) with (y + (4 * e) * 100) at 1 by lia.
  replace (y + 400 * e) with (y + e * 400) by lia.
  by rewrite !Z_mod_plus_full.
Qed.

Lemma days_in_month_shift e y m :
  days_in_month (y + 400 * e) m = days_in_month y m.
Proof. unfold days_in_month. by rewrite is_leap_shift. Qed.

Lemma valid_civil_shift e c : valid_civil (shift_era e c) = valid_civil c.
Proof. unfold valid_civil, shift_era. simpl. by rewrite days_in_month_shift. Qed.


Lemma days_from_civil_shift e c :
  days_from_civil (shift_era e c) = days_from_civil c + e * days_per_era.
Proof.
  unfold days_from_civil, shift_era. simpl.
  set (a := if month c <=? 2 then 1 else 0).
  replace (year c + 400 * e - a) with (year c - a + e * 400) by lia.
  rewrite Z_div_plus_full by done. rewrite Z_mod_plus_full. lia.
Qed.

(** The day number split into its era and its day of the era. *)
Lemma civil_from_days_era z :
  civil_from_days z
  = shift_era ((z + 719468) / days_per_era)
      (civil_of_doe 0 ((z + 719468) mod days_per_era)).
Proof. unfold civil_from_days. apply civil_of_doe_shift. Qed.

Lemma doe_range z : 0 ≤ (z + 719468) mod days_per_era < days_per_era.
Proof. by apply Z.mod_pos_bound. Qed.

(** Every day number has a date of the calendar. *)
Lemma civil_from_days_valid z : valid_civil (civil_from_days z) = true.
Proof.
  rewrite civil_from_days_era, valid_civil_shift.
  apply doe_facts, doe_range.
Qed.


(** The way back from the date to the day number. *)
Lemma days_from_civil_from_days z : days_from_civil (civil_from_days z) = z.
Proof.
  rewrite civil_from_days_era, days_from_civil_shift.
  destruct (doe_facts _ (doe_range z)) as (_ & _ & -> & _).
  pose proof (Z_div_mod_eq_full (z + 719468) days_per_era). lia.
Qed.

Lemma civil_from_days_inj z1 z2 :
  civil_from_days z1 = civil_from_days z2 → z1 = z2.
Proof.
  intros H. apply (f_equal days_from_civil) in H.
  by rewrite !days_from_civil_from_days in H.
Qed.

(** The day numbers of the timestamps pandas can hold. *)
Lemma in_bounds_day t : in_bounds t → -106752 ≤ day_of t ≤ 106751.
Proof.
  unfold in_bounds, normalize, midnight, day_of, Timestamp_min, Timestamp_max,
    ns_per_day. simpl. intros [Hlo Hhi].
  pose proof (Z_div_mod_eq_full (value t) 86400000000000) as Hz.
  pose proof (Z.mod_pos_bound (value t) 86400000000000 eq_refl) as Hr.
  lia.
Qed.

Lemma year_of_day z :
  -106752 ≤ z ≤ 106751 → 1600 ≤ year (civil_from_days z) ≤ 2800.
Proof.
  intros Hz. rewrite civil_from_days_era.
  destruct (doe_facts _ (doe_range z)) as (_ & Hy & _ & _).
  unfold shift_era. cbn [year].
  set (y := year (civil_of_doe 0 _)) in *. clearbody y.
  pose proof (Z_div_mod_eq_full (z + 719468) days_per_era) as Hd.
  pose proof (doe_range z) as Hr. unfold days_per_era in *.
  assert (4 ≤ (z + 719468) / 146097 ≤ 5) by lia. lia.
Qed.

(** ** Digits and names *)

Lemma chars_of_chars l : Str.chars (Str.of_chars l) = l.
Proof. apply list_ascii_of_string_of_list_ascii. Qed.

Lemma of_chars_chars s : Str.of_chars (Str.chars s) = s.
Proof. apply string_of_list_ascii_of_string. Qed.

Lemma chars_app s1 s2 : Str.chars (s1 +:+ s2) = Str.chars s1 ++ Str.chars s2.
Proof. induction s1 as [|c s1 IH]; [done|]. simpl. by rewrite <- IH. Qed.

Lemma digit_value_char n : digit_value (digit_char n) = Some (n mod 10).
Proof.
  unfold digit_char.
  pose proof (Z.mod_pos_bound n 10 eq_refl) as H.
  assert (n mod 10 ∈ seqZ 0 10) as Hin by (apply elem_of_seqZ; lia).
  revert Hin. generalize (n mod 10). intros k Hk.
  repeat (apply elem_of_cons in Hk as [->|Hk]; [reflexivity|]).
  by apply elem_of_nil in Hk.
Qed.

Lemma digit_not_in_csv n : Str.mem (digit_char n) ".csv" = false.
Proof.
  unfold digit_char.
  pose proof (Z.mod_pos_bound n 10 eq_refl) as H.
  assert (n mod 10 ∈ seqZ 0 10) as Hin by (apply elem_of_seqZ; lia).
  revert Hin. generalize (n mod 10). intros k Hk.
  repeat (apply elem_of_cons in Hk as [->|Hk]; [reflexivity|]).
  by apply elem_of_nil in Hk.
Qed.

Lemma length_digits w n : length (digits w n) = w.
Proof.
  revert n. induction w as [|w IH]; intros n; [done|].
  simpl. rewrite length_app, IH. simpl. lia.
Qed.

Lemma number_app acc l1 l2 :
  number acc (l1 ++ l2) = number acc l1 ≫= λ a, number a l2.
Proof.
  revert acc. induction l1 as [|c l1 IH]; intros acc; [done|].
  simpl. destruct (digit_value c); [apply IH|done].
Qed.

Lemma number_digits w acc n :
  number acc (digits w n) = Some (acc * 10 ^ Z.of_nat w + n mod 10 ^ Z.of_nat w).
Proof.
  revert acc n. induction w as [|w IH]; intros acc n.
  - simpl. rewrite Z.mod_1_r. f_equal. lia.
  - cbn [digits]. rewrite number_app, IH. simpl.
    rewrite digit_value_char. f_equal.
    rewrite Nat2Z.inj_succ, Z.pow_succ_r by lia.
    assert (0 < 10 ^ Z.of_nat w) as Hp by (apply Z.pow_pos_nonneg; lia).
    set (p := 10 ^ Z.of_nat w) in *.
    rewrite (Z.rem_mul_r n 10 p) by lia. lia.
Qed.

Lemma number_digits_small w n :
  0 ≤ n < 10 ^ Z.of_nat w → number 0 (digits w n) = Some n.
Proof.
  intros H. rewrite number_digits. rewrite Z.mod_small by done. f_equal; lia.
Qed.

Lemma strftime_chars t :
  Str.chars (strftime_Ymd t)
  = digits 4 (year (civil_from_days (day_of t)))
    ++ digits 2 (month (civil_from_days (day_of t)))
    ++ digits 2 (mday (civil_from_days (day_of t))).
Proof. unfold strftime_Ymd. apply chars_of_chars. Qed.

Lemma valid_civil_range c :
  valid_civil c = true → 1 ≤ month c ≤ 12 ∧ 1 ≤ mday c ≤ 31.
Proof.
  unfold valid_civil, days_in_month. rewrite !andb_true_iff.
  intros [[[H1 H2] H3] H4].
  destruct (month c =? 2); [destruct (is_leap (year c))|];
    [| |destruct (_ || _)]; lia.
Qed.

Ltac digits_length :=
  rewrite ?length_app, ?length_digits; reflexivity.

(** Reading back the eight digits of a date gives the midnight of its day. *)
Lemma parse_strftime t :
  -106752 ≤ day_of t ≤ 106751 →
  parse_Ymd (strftime_Ymd t) = Some (midnight false (day_of t)).
Proof.
  intros Hday. unfold parse_Ymd. rewrite strftime_chars.
  pose proof (year_of_day _ Hday) as Hy.
  pose proof (civil_from_days_valid (day_of t)) as Hv.
  pose proof (valid_civil_range _ Hv) as [Hm Hd].
  pose proof (days_from_civil_from_days (day_of t)) as Hback.
  destruct (civil_from_days (day_of t)) as [y m d]. cbn [year month mday] in *.
  rewrite bool_decide_eq_true_2 by digits_length.
  rewrite (take_app_length' (digits 4 y)) by digits_length.
  rewrite (drop_app_length' (digits 4 y) _ 4) by digits_length.
  rewrite (take_app_length' (digits 2 m)) by digits_length.
  rewrite (app_assoc (digits 4 y)).
  rewrite (drop_app_length' (digits 4 y ++ digits 2 m)) by digits_length.
  rewrite !number_digits_small by (simpl; lia). cbn [mbind option_bind].
  rewrite Hv. by rewrite Hback.
Qed.

Lemma strip_front_stop cs l1 c l2 :
  Forall (λ x, Str.mem x cs = true) l1 → Str.mem c cs = false →
  Str.strip_front cs (l1 ++ c :: l2) = c :: l2.
Proof.
  intros Hl Hc. induction Hl as [|x l1 Hx _ IH]; simpl.
  - by rewrite Hc.
  - by rewrite Hx.
Qed.

Lemma rstrip_csv_chars (pre body : list ascii) (c : ascii) :
  Str.mem c ".csv" = false →
  reverse (Str.strip_front ".csv"
             (reverse (pre ++ (body ++ [c]) ++ Str.chars ".csv")))
  = pre ++ body ++ [c].
Proof.
  intros Hc. rewrite !reverse_app, reverse_singleton.
  rewrite <- !(assoc_L (++)).
  change ([c] ++ reverse body ++ reverse pre)
    with (c :: (reverse body ++ reverse pre)).
  rewrite (strip_front_stop ".csv" (reverse (Str.chars ".csv")));
    [|by repeat constructor|done].
  rewrite reverse_cons, reverse_app, !reverse_involutive.
  by rewrite <- (assoc_L (++)).
Qed.

(** The date is read back from the end of a name: after the extension is
    stripped the last eight characters are the digits of the date. *)
Lemma date_of_name s pre t :
  Str.chars s = pre ++ Str.chars (strftime_Ymd t) ++ Str.chars ".csv" →
  Str.suffix 8 (Str.rstrip ".csv" s) = strftime_Ymd t.
Proof.
  intros Hs. unfold Str.suffix, Str.rstrip. rewrite chars_of_chars, Hs.
  rewrite <- (of_chars_chars (strftime_Ymd t)) at 3.
  assert (length (Str.chars (strftime_Ymd t)) = 8%nat) as Hlen
    by (rewrite strftime_chars; digits_length).
  assert (∃ body k, Str.chars (strftime_Ymd t) = body ++ [digit_char k])
    as (body & k & Hymd).
  { rewrite strftime_chars.
    set (c := civil_from_days (day_of t)).
    exists (digits 4 (year c) ++ digits 2 (month c) ++ digits 1 (mday c / 10)),
      (mday c).
    change (digits 2 (mday c))
      with (digits 1 (mday c / 10) ++ [digit_char (mday c)]).
    by rewrite <- !(assoc_L (++)). }
  revert Hlen. rewrite Hymd. generalize (digit_not_in_csv k).
  generalize (digit_char k). intros c Hc Hlen.
  rewrite (rstrip_csv_chars pre body c Hc).
  rewrite length_app, Hlen.
  replace (length pre + 8 - 8)%nat with (length pre) by lia.
  by rewrite drop_app_length.
Qed.

(** ** The contagions path *)

(** The date of a day number written as eight digits. *)
Definition format_Ymd (c : civil) : string :=
  Str.of_chars (digits 4 (year c) ++ digits 2 (month c) ++ digits 2 (mday c)).

(** The part of a subdirectory's name that enters the names of its files. *)
Definition tag (sub : string) : string :=
  Str.lstrip "-" (Str.lstrip "dati" sub).

Definition name_of (sub : string) (date : Timestamp) : string :=
  "dpc-covid19-ita-" +:+ tag sub +:+ "-" +:+ strftime_Ymd date +:+ ".csv".

(** The file of [date] in the subdirectory [sub] of [dir]. *)
Definition path_of (dir : Path) (date : Timestamp) (sub : string) : Path :=
  joinpath (joinpath dir sub) (name_of sub date).

Definition subdirs (dir : Path) : list Path :=
  joinpath dir <$> Contagions.subdir_names.

(** The expected files, date by date and subdirectory by subdirectory. *)
Definition files_of (dir : Path) (dates : list Timestamp) : list Path :=
  date ← dates; path_of dir date <$> Contagions.subdir_names.

(** The URL [update] fetches a file from. *)
Definition url_of (file : Path) : string :=
  Str.join "/" (Contagions.remote :: last_two file).

(** The making of the directories. *)
Definition stage (dir : Path) : M (list unit) :=
  create_dir dir;; mapM create_dir (subdirs dir).

(** The world after a request of [url]. *)
Definition requested (url : string) (w : World) : World :=
  mkWorld (fs w) (requests w ++ [url]).

Lemma strftime_format t :
  strftime_Ymd t = format_Ymd (civil_from_days (day_of t)).
Proof. reflexivity. Qed.

Lemma file_of_spec dir sub date w :
  Contagions.file_of (joinpath dir sub) date w = (w, Ret (path_of dir date sub)).
Proof.
  unfold Contagions.file_of, Contagions.file_name.
  rewrite !bind_unfold, name_joinpath. reflexivity.
Qed.

Lemma files_of_date_spec dir date w :
  Contagions.files_of_date (subdirs dir) date w
  = (w, Ret (path_of dir date <$> Contagions.subdir_names)).
Proof.
  unfold subdirs, Contagions.subdir_names.
  cbn [fmap list_fmap Contagions.files_of_date].
  rewrite (bind_Ret _ _ _ _ _ (file_of_spec _ _ _ _)).
  rewrite bind_unfold.
  rewrite (bind_Ret _ _ _ _ _ (file_of_spec _ _ _ _)). reflexivity.
Qed.

Lemma expected_files_spec dir dates w :
  Contagions.expected_files (subdirs dir) dates w
  = (w, Ret (files_of dir dates)).
Proof.
  induction dates as [|date dates IH]; [done|].
  cbn [Contagions.expected_files].
  rewrite (bind_Ret _ _ _ _ _ (files_of_date_spec _ _ _)).
  rewrite (bind_Ret _ _ _ _ _ IH). reflexivity.
Qed.

Lemma elem_of_files_of dir dates file :
  file ∈ files_of dir dates ↔
  ∃ date sub, date ∈ dates ∧ sub ∈ Contagions.subdir_names ∧
              file = path_of dir date sub.
Proof.
  unfold files_of. rewrite list_elem_of_bind. split.
  - intros (date & (sub & -> & Hsub)%list_elem_of_fmap & Hdate). eauto.
  - intros (date & sub & Hdate & Hsub & ->). exists date. split; [|done].
    apply list_elem_of_fmap. eauto.
Qed.

Lemma path_of_not_nil dir date sub : path_of dir date sub ≠ [].
Proof. apply joinpath_not_nil. Qed.

Lemma parent_path_of dir date sub :
  parent (path_of dir date sub) = joinpath dir sub.
Proof. apply parent_joinpath. Qed.

Lemma name_path_of dir date sub w :
  name (path_of dir date sub) w = (w, Ret (name_of sub date)).
Proof. apply name_joinpath. Qed.

Lemma create_dir_mono dir w w' r :
  create_dir dir w = (w', r) →
  requests w' = requests w ∧
  (∀ p n, fs w !! p = Some n → fs w' !! p = Some n) ∧
  (r = Ret tt → exists_ (fs w') dir = true).
Proof.
  destruct (exists_ (fs w) dir) eqn:Hex.
  - rewrite create_dir_present by done. by intros [= <- <-].
  - rewrite create_dir_absent by done. intros H. apply exists_false in Hex.
    apply mkdir_inv in H as [(-> & _ & _ & ->)|(-> & e & -> & _)];
      simpl; [|done].
    assert (dir ≠ []) as Hne by (by intros ->).
    rewrite stat_lookup in Hex by done. split_and!; [done| |].
    + intros p n Hp. rewrite lookup_insert_ne; [done|].
      intros ->. pose proof (eq_trans (eq_sym Hex) Hp). discriminate.
    + intros _. apply exists_true. rewrite stat_insert by done.
      rewrite decide_True by done. eauto.
Qed.

Lemma exists_mono f f' p :
  (∀ q n, f !! q = Some n → f' !! q = Some n) →
  exists_ f p = true → exists_ f' p = true.
Proof.
  intros Hmono. rewrite !exists_true. destruct p as [|s p]; [done|].
  simpl. intros [n Hn]. exists n. by apply Hmono.
Qed.

Lemma stage_inv dir w w1 r :
  stage dir w = (w1, r) →
  requests w1 = requests w ∧
  (∀ p n, fs w !! p = Some n → fs w1 !! p = Some n) ∧
  (∀ p, p ∉ dir :: subdirs dir → fs w1 !! p = fs w !! p) ∧
  (∀ us, r = Ret us → ∀ p, p ∈ dir :: subdirs dir → exists_ (fs w1) p = true).
Proof.
  unfold stage, subdirs, Contagions.subdir_names. simpl. intros H.
  apply bind_inv in H as [(wa & [] & Ha & H)|(e & Ha & ->)].
  2:{ destruct (create_dir_mono _ _ _ _ Ha) as (? & ? & _).
      split_and!; [done|done| |done].
      intros p Hp. apply (create_dir_frame _ _ _ _ _ Ha).
      by apply not_elem_of_cons in Hp as [? _]. }
  destruct (create_dir_mono _ _ _ _ Ha) as (Hra & Hma & Hea).
  apply bind_inv in H as [(wb & [] & Hb & H)|(e & Hb & ->)].
  2:{ destruct (create_dir_mono _ _ _ _ Hb) as (? & ? & _).
      split_and!; [congruence|by auto| |done].
      intros p Hp. rewrite !not_elem_of_cons in Hp. destruct Hp as (? & ? & _).
      rewrite (create_dir_frame _ _ _ _ _ Hb) by done.
      by apply (create_dir_frame _ _ _ _ _ Ha). }
  destruct (create_dir_mono _ _ _ _ Hb) as (Hrb & Hmb & Heb).
  apply bind_inv in H as [(wc & us & Hc & H)|(e & Hc & ->)].
  2:{ apply bind_inv in Hc as [(wd & [] & Hd & Hc)|(e' & Hd & _)].
      { by injection Hc. }
      destruct (create_dir_mono _ _ _ _ Hd) as (? & ? & _).
      split_and!; [congruence|by auto| |done].
      intros p Hp. rewrite !not_elem_of_cons in Hp.
      destruct Hp as (? & ? & ? & _).
      rewrite (create_dir_frame _ _ _ _ _ Hd) by done.
      rewrite (create_dir_frame _ _ _ _ _ Hb) by done.
      by apply (create_dir_frame _ _ _ _ _ Ha). }
  injection H as <- <-.
  apply bind_inv in Hc as [(wd & [] & Hd & Hc)|(e' & Hd & [=])].
  injection Hc as <- <-.
  destruct (create_dir_mono _ _ _ _ Hd) as (Hrd & Hmd & Hed).
  split_and!; [congruence|by auto| |].
  - intros p Hp. rewrite !not_elem_of_cons in Hp.
    destruct Hp as (? & ? & ? & _).
    rewrite (create_dir_frame _ _ _ _ _ Hd) by done.
    rewrite (create_dir_frame _ _ _ _ _ Hb) by done.
    by apply (create_dir_frame _ _ _ _ _ Ha).
  - intros _ _ p Hp. rewrite !elem_of_cons, elem_of_nil in Hp.
    destruct Hp as [->|[->|[->|[]]]].
    + apply (exists_mono (fs wa)); [by auto|by auto].
    + apply (exists_mono (fs wb)); [by auto|by auto].
    + by auto.
Qed.

Lemma midnight_inj tz a b : midnight tz a = midnight tz b → a = b.
Proof. unfold midnight, ns_per_day. intros [= H]. lia. Qed.

Lemma chars_name_of sub date :
  Str.chars (name_of sub date)
  = (Str.chars "dpc-covid19-ita-" ++ Str.chars (tag sub) ++ Str.chars "-")
    ++ Str.chars (strftime_Ymd date) ++ Str.chars ".csv".
Proof. unfold name_of. rewrite !chars_app. by rewrite <- !(assoc_L (++)). Qed.

(** [update] reads the day of a file back from its name. *)
Lemma date_of_path sub date :
  -106752 ≤ day_of date ≤ 106751 →
  parse_Ymd (Str.suffix 8 (Str.rstrip ".csv" (name_of sub date)))
  = Some (midnight false (day_of date)).
Proof.
  intros Hday. rewrite (date_of_name _ _ _ (chars_name_of sub date)).
  by apply parse_strftime.
Qed.

Section contagions.
Variable env : Env.

Definition today : Z := day_of (Timestamp_now env).

(** What a call of [update] does, step by step. *)
Lemma update_inv file w w' r :
  Contagions.update env file w = (w', r) →
  (w' = w ∧ ∃ e, r = Raise e) ∨
  (∃ s date, last file = Some s ∧
     parse_Ymd (Str.suffix 8 (Str.rstrip ".csv" s)) = Some date ∧
     match remote_csv env (url_of file) with
     | Found df =>
         write_file file (Csv df) (requested (url_of file) w) = (w', r)
     | HttpFailure code =>
         w' = requested (url_of file) w ∧
         r = if bool_decide (date ≠ normalize (Timestamp_now env))
             then Raise (RuntimeError (url_of file) code) else Ret tt
     | Unreachable =>
         w' = requested (url_of file) w ∧ r = Raise (URLError (url_of file))
     end).
Proof.
  unfold Contagions.update. fold (url_of file). rewrite bind_unfold.
  unfold name. destruct (last file) as [s|] eqn:Hlast.
  2:{ intros [= <- <-]. left. eauto. }
  cbn [mret M_ret].
  destruct (parse_Ymd _) as [date|] eqn:Hparse.
  2:{ intros [= <- <-]. left. eauto. }
  intros H. right. exists s, date. split_and!; [done|done|].
  apply bind_inv in H as [(w1 & df & H1 & H)|(e & H1 & ->)];
    apply download_csv_inv in H1 as [-> Hr];
    fold (requested (url_of file) w) in *;
    destruct (remote_csv env (url_of file)) as [df'|code|];
    try destruct (bool_decide (date ≠ _)); try discriminate.
  - by injection Hr as ->.
  - injection Hr as ->. by injection H as <- <-.
  - by injection Hr as ->.
  - by injection Hr as ->.
Qed.

Lemma update_frame : writes_own (Contagions.update env).
Proof.
  intros file w w' r p H Hne.
  apply update_inv in H as [[-> _]|(s & date & _ & _ & H)]; [done|].
  destruct (remote_csv env (url_of file)) as [df|code|].
  - by rewrite (write_file_frame _ _ _ _ _ _ H Hne).
  - by destruct H as [-> _].
  - by destruct H as [-> _].
Qed.

(** A call of [update] on an expected file. *)
Lemma update_path_of dir date sub w :
  -106752 ≤ day_of date ≤ 106751 →
  Contagions.update env (path_of dir date sub) w =
    match remote_csv env (url_of (path_of dir date sub)) with
    | Found df =>
        write_file (path_of dir date sub) (Csv df)
          (requested (url_of (path_of dir date sub)) w)
    | HttpFailure code =>
        (requested (url_of (path_of dir date sub)) w,
         if bool_decide (day_of date = today) then Ret tt
         else Raise (RuntimeError (url_of (path_of dir date sub)) code))
    | Unreachable =>
        (requested (url_of (path_of dir date sub)) w,
         Raise (URLError (url_of (path_of dir date sub))))
    end.
Proof.
  intros Hday. unfold Contagions.update. fold (url_of (path_of dir date sub)).
  rewrite (bind_Ret _ _ _ _ _ (name_path_of _ _ _ _)).
  rewrite (date_of_path _ _ Hday).
  unfold download_csv. rewrite !bind_unfold. cbn [request].
  fold (requested (url_of (path_of dir date sub)) w).
  destruct (remote_csv env _) as [df|code|]; [done| |done].
  unfold normalize, today. cbn [tz_aware Timestamp_now].
  destruct (decide (day_of date = day_of (Timestamp_now env))) as [Heq|Hne].
  - rewrite (bool_decide_eq_true_2 _ Heq).
    rewrite bool_decide_eq_false_2; [done|]. intros Hn. apply Hn.
    by rewrite Heq.
  - rewrite (bool_decide_eq_false_2 _ Hne).
    rewrite bool_decide_eq_true_2; [done|].
    intros Heq%midnight_inj. done.
Qed.

End contagions.

Lemma bind_assoc {A B C} (m : M A) (f : A → M B) (g : B → M C) w :
  ((m ≫= f) ≫= g) w = (m ≫= λ a, f a ≫= g) w.
Proof. rewrite !bind_unfold. by destruct (m w) as [w1 [a|e]]. Qed.

Section contagions_runs.
Variable env : Env.

Lemma update_contagions_unfold dir start_date end_date force w :
  Contagions.update_contagions env dir start_date end_date force w =
    match stage dir w with
    | (w1, Ret _) =>
        run_calls (Contagions.update env)
          (call_order env
             (absent_files force (fs w1)
                (files_of dir
                   (date_range start_date
                      (default (Timestamp_now env) end_date))))) w1
    | (w1, Raise e) => (w1, Raise e)
    end.
Proof.
  transitivity
    ((stage dir ≫= λ _,
        files ← Contagions.expected_files (subdirs dir)
                  (date_range start_date
                     (default (Timestamp_now env) end_date));
        files ← Contagions.work_list force files;
        Parallel env (if debug env then 1 else -1) (Contagions.update env)
          files) w).
  { unfold stage. by rewrite bind_assoc. }
  rewrite bind_unfold. destruct (stage dir w) as [w1 [us|e]]; [|done].
  rewrite (bind_Ret _ _ _ _ _ (expected_files_spec _ _ _)).
  rewrite (bind_Ret _ _ _ _ _ (work_list_spec _ _ _)).
  by rewrite Parallel_call_order.
Qed.


(** A call that returns has made its request; it has written the table
    when there was one, and nothing otherwise. *)
Lemma update_Ret file w w' :
  Contagions.update env file w = (w', Ret tt) →
  requests w' = requests w ++ [url_of file] ∧
  match remote_csv env (url_of file) with
  | Found df => fs w' = <[file := File (Csv df)]> (fs w)
  | _ => fs w' = fs w
  end.
Proof.
  intros H. apply update_inv in H as [[_ [e [=]]]|(s & date & _ & _ & H)].
  destruct (remote_csv env (url_of file)) as [df|code|].
  - apply write_file_inv in H as [(_ & _ & _ & ->)|(_ & e & [=] & _)]. done.
  - by destruct H as [-> _].
  - by destruct H as [_ [=]].
Qed.

Lemma update_requests file w w' r :
  Contagions.update env file w = (w', r) →
  requests w' = requests w ∨ requests w' = requests w ++ [url_of file].
Proof.
  intros H. apply update_inv in H as [[-> _]|(s & date & _ & _ & H)];
    [by left|].
  destruct (remote_csv env (url_of file)) as [df|code|].
  - right. by rewrite (write_file_requests _ _ _ _ _ H).
  - right. by destruct H as [-> _].
  - right. by destruct H as [-> _].
Qed.

(** A call never removes a path. *)
Lemma update_exists_mono file w w' r p :
  Contagions.update env file w = (w', r) →
  is_Some (fs w !! p) → is_Some (fs w' !! p).
Proof.
  intros H. destruct (decide (p = file)) as [->|Hne].
  - apply update_inv in H as [[-> _]|(s & date & _ & _ & H)]; [done|].
    destruct (remote_csv env (url_of file)) as [df|code|].
    + apply write_file_inv in H as [(_ & _ & _ & ->)|(-> & _)]; [|done].
      simpl. rewrite lookup_insert_eq. eauto.
    + by destruct H as [-> _].
    + by destruct H as [-> _].
  - by rewrite (update_frame env _ _ _ _ _ H Hne).
Qed.

Lemma run_calls_exists_mono l w w' r p :
  run_calls (Contagions.update env) l w = (w', r) →
  is_Some (fs w !! p) → is_Some (fs w' !! p).
Proof.
  revert w. induction l as [|f l IH]; intros w H Hp.
  - by injection H as <- _.
  - cbn [run_calls] in H.
    apply bind_inv in H as [(w1 & [] & H1 & H)|(e & H1 & _)].
    + apply (IH _ H). by apply (update_exists_mono _ _ _ _ _ H1).
    + by apply (update_exists_mono _ _ _ _ _ H1).
Qed.

(** The requests of a run are those of the calls it made, in their order:
    a prefix of the call order. *)
Lemma run_calls_requests l w w' r :
  run_calls (Contagions.update env) l w = (w', r) →
  ∃ done, done `prefix_of` l ∧
    requests w' = requests w ++ (url_of <$> done) ∧
    (r = Ret tt → done = l).
Proof.
  revert w. induction l as [|f l IH]; intros w H.
  - injection H as <- <-. exists []. by rewrite app_nil_r.
  - cbn [run_calls] in H.
    apply bind_inv in H as [(w1 & [] & H1 & H)|(e & H1 & ->)].
    + destruct (IH _ H) as (done & Hpre & Hreq & Hall).
      apply update_Ret in H1 as [Hr1 _].
      exists (f :: done). split_and!.
      * by apply prefix_cons.
      * rewrite Hreq, Hr1. by rewrite <- (assoc_L (++)).
      * intros Hr. by rewrite (Hall Hr).
    + destruct (update_requests _ _ _ _ H1) as [Hr|Hr].
      * exists []. split_and!; [apply prefix_nil|by rewrite app_nil_r|done].
      * exists [f]. split_and!; [|done|done].
        apply prefix_cons, prefix_nil.
Qed.


End contagions_runs.

Section contagions_claims.
Variable env : Env.







End contagions_claims.

(** *** Runs of [update_contagions] *)

(** Noon of 2021-01-30, of 2021-01-31, the first nanosecond of 2021-02-02,
    and ten o'clock of 2021-02-05. *)
Definition jan30 : Timestamp :=
  mkTimestamp (18657 * ns_per_day + 43200000000000) false.
Definition jan31 : Timestamp :=
  mkTimestamp (18658 * ns_per_day + 43200000000000) false.
Definition feb05 : Timestamp :=
  mkTimestamp (18663 * ns_per_day + 36000000000000) false.

(** A remote that has every table but those at the URLs [missing], which
    answer 404; the clock stands at [feb05]; the pool completes its calls
    in the reverse order. *)
Definition cont_env (missing : list string) (debug : bool) : Env :=
  mkEnv (λ url, if bool_decide (url ∈ missing) then HttpFailure 404
                else Found sample_table)
        (λ _, Unreachable) (value feb05) debug reverse.

Definition nazionale : string := "dati-andamento-nazionale".
Definition regioni : string := "dati-regioni".

Lemma cont_env_fair missing debug : fair_pool (cont_env missing debug).
Proof. intros l. apply reverse_Permutation. Qed.

Lemma jan30_in_bounds : in_bounds jan30.
Proof. split; vm_compute; discriminate. Qed.

Lemma feb05_in_bounds : in_bounds feb05.
Proof. split; vm_compute; discriminate. Qed.



(** The world with [data] and its two subdirectories. *)
Definition dirs_world : World :=
  mkWorld (<[ ["data"; "dati-regioni"]%string := Dir ]>
             (<[ ["data"; "dati-andamento-nazionale"]%string := Dir ]>
                (fs staged_world))) [].

Definition first_url : string :=
  url_of (path_of ["data"%string] jan30 nazionale).



Lemma day_of_midnight tz d : day_of (midnight tz d) = d.
Proof. unfold day_of, midnight. simpl. by apply Z_div_mult_full. Qed.

Lemma elem_of_date_range start_date end_date date :
  date ∈ date_range start_date end_date →
  day_of start_date ≤ day_of date ≤ day_of end_date.
Proof.
  unfold date_range. intros (d & -> & Hd%elem_of_seqZ)%list_elem_of_fmap.
  rewrite day_of_midnight. lia.
Qed.

Lemma date_range_days start_date end_date date :
  in_bounds start_date → in_bounds end_date →
  date ∈ date_range start_date end_date →
  -106752 ≤ day_of date ≤ 106751.
Proof.
  intros Hs%in_bounds_day He%in_bounds_day Hd%elem_of_date_range. lia.
Qed.

Lemma exists_some f (p : Path) :
  p ≠ [] → exists_ f p = true ↔ is_Some (f !! p).
Proof. intros Hp. by rewrite exists_true, stat_lookup. Qed.

Lemma stage_present dir w :
  (∀ p, p ∈ dir :: subdirs dir → exists_ (fs w) p = true) →
  stage dir w = (w, Ret [tt; tt]).
Proof.
  intros Hall.
  assert (∀ p, p ∈ dir :: subdirs dir → create_dir p w = (w, Ret tt)) as Hc.
  { intros p Hp. by apply create_dir_present, Hall. }
  unfold stage, subdirs, Contagions.subdir_names in *.
  cbn [fmap list_fmap mapM] in *.
  rewrite (bind_Ret _ _ _ _ _ (Hc _ (list_elem_of_here _ _))).
  rewrite (bind_Ret _ _ _ _ _
    (Hc _ (list_elem_of_further _ _ _ (list_elem_of_here _ _)))).
  rewrite bind_unfold.
  rewrite (bind_Ret _ _ _ _ _
    (Hc _ (list_elem_of_further _ _ _
             (list_elem_of_further _ _ _ (list_elem_of_here _ _))))).
  reflexivity.
Qed.

Section second_run.
Variable env : Env.

(** After a run that returns, a file called for is there, unless it is a
    file of the current day that the remote does not have. *)
Lemma run_calls_Ret_present l w w' dir date sub :
  run_calls (Contagions.update env) l w = (w', Ret tt) →
  path_of dir date sub ∈ l →
  -106752 ≤ day_of date ≤ 106751 →
  exists_ (fs w') (path_of dir date sub) = true ∨
  (day_of date = today env ∧
   ∃ code, remote_csv env (url_of (path_of dir date sub)) = HttpFailure code).
Proof.
  intros Hrun Hin Hb. revert w Hrun.
  induction l as [|f l IH]; intros w Hrun; [by apply elem_of_nil in Hin|].
  cbn [run_calls] in Hrun.
  apply bind_inv in Hrun as [(w1 & [] & H1 & Hrun)|(e & _ & [=])].
  destruct (decide (path_of dir date sub ∈ l)) as [Hl|Hl];
    [by apply (IH Hl _ Hrun)|].
  apply elem_of_cons in Hin as [<-|Hin]; [|done].
  rewrite (update_path_of env _ _ _ _ Hb) in H1.
  destruct (remote_csv env _) as [df|code|] eqn:Hrem.
  - left. apply exists_some; [apply path_of_not_nil|].
    apply (run_calls_exists_mono env _ _ _ _ _ Hrun).
    apply write_file_inv in H1 as [(_ & _ & _ & ->)|(_ & e & [=] & _)].
    simpl. rewrite lookup_insert_eq. eauto.
  - right. destruct (decide (day_of date = today env)) as [Hd|Hd].
    + eauto.
    + by rewrite (bool_decide_eq_false_2 _ Hd) in H1.
  - by injection H1.
Qed.

(** Calls that only make their request. *)
Lemma run_calls_skips l w :
  (∀ f w0, f ∈ l →
     Contagions.update env f w0 = (requested (url_of f) w0, Ret tt)) →
  run_calls (Contagions.update env) l w
  = (mkWorld (fs w) (requests w ++ (url_of <$> l)), Ret tt).
Proof.
  revert w. induction l as [|f l IH]; intros w Hl.
  - cbn. rewrite app_nil_r. by destruct w.
  - cbn [run_calls].
    rewrite (bind_Ret _ _ _ _ _ (Hl f w (list_elem_of_here _ _))).
    rewrite IH by (intros; apply Hl; by apply list_elem_of_further).
    unfold requested. cbn [fs requests fmap list_fmap].
    by rewrite <- (assoc_L (++)).
Qed.

(** C4, as the code has it: after a run that returned, a second run in the
    same surroundings makes calls only for the expected files that are
    still absent, and these are files of the current day that the remote
    does not have; it requests them again, gets nothing, and leaves the
    files as they are.  A file that is present is not requested, the one of
    the current day no more than the others. *)
Theorem update_contagions_second_run dir start_date end_date w w1 :
  fair_pool env →
  in_bounds start_date →
  in_bounds (default (Timestamp_now env) end_date) →
  Contagions.update_contagions env dir start_date end_date false w
  = (w1, Ret tt) →
  ∃ again,
    Contagions.update_contagions env dir start_date end_date false w1
    = (mkWorld (fs w1) (requests w1 ++ (url_of <$> again)), Ret tt) ∧
    (∀ file, file ∈ again ↔
       file ∈ files_of dir
                (date_range start_date
                   (default (Timestamp_now env) end_date)) ∧
       exists_ (fs w1) file = false) ∧
    (∀ file, file ∈ again →
       ∃ date sub code, file = path_of dir date sub ∧
         day_of date = today env ∧
         remote_csv env (url_of file) = HttpFailure code).
Proof.
  intros Hfair Hs He. rewrite !update_contagions_unfold.
  set (files := files_of dir _).
  destruct (stage dir w) as [w0 [us|e]] eqn:Hstage; [|done].
  intros Hrun.
  destruct (stage_inv _ _ _ _ Hstage) as (_ & _ & _ & Hdirs).
  assert (stage dir w1 = (w1, Ret [tt; tt])) as ->.
  { apply stage_present. intros p Hp.
    specialize (Hdirs us eq_refl p Hp). revert Hdirs.
    rewrite !exists_true. destruct p as [|s p]; [done|]. simpl.
    apply (run_calls_exists_mono env _ _ _ _ _ Hrun). }
  set (again := call_order env (absent_files false (fs w1) files)).
  assert (∀ file, file ∈ again ↔ file ∈ files ∧ exists_ (fs w1) file = false)
    as Hagain.
  { intros file. unfold again. rewrite call_order_perm by done.
    rewrite elem_of_absent_files. split; intros [? ?]; split; auto. }
  assert (∀ file, file ∈ again →
    ∃ date sub code, file = path_of dir date sub ∧
      -106752 ≤ day_of date ≤ 106751 ∧ day_of date = today env ∧
      remote_csv env (url_of file) = HttpFailure code) as Hmiss.
  { intros file [Hin Hex]%Hagain.
    apply elem_of_files_of in Hin as (date & sub & Hdate & Hsub & ->).
    pose proof (date_range_days _ _ _ Hs He Hdate) as Hb.
    destruct (exists_ (fs w0) (path_of dir date sub)) eqn:Hex0.
    { apply exists_some in Hex0; [|apply path_of_not_nil].
      apply (run_calls_exists_mono env _ _ _ _ _ Hrun) in Hex0.
      apply exists_some in Hex0; [|apply path_of_not_nil]. congruence. }
    assert (path_of dir date sub
            ∈ call_order env (absent_files false (fs w0) files)) as Hin.
    { rewrite call_order_perm by done. apply elem_of_absent_files.
      split; [|done]. apply elem_of_files_of.
      exists date, sub. done. }
    destruct (run_calls_Ret_present _ _ _ _ _ _ Hrun Hin Hb)
      as [Hp|[Hd [code Hc]]]; [congruence|].
    exists date, sub, code. done. }
  exists again. split_and!; [|done|].
  - apply run_calls_skips. intros f w2 Hf.
    destruct (Hmiss f Hf) as (date & sub & code & -> & Hb & Hd & Hc).
    rewrite (update_path_of env _ _ _ _ Hb), Hc.
    by rewrite (bool_decide_eq_true_2 _ Hd).
  - intros file Hf.
    destruct (Hmiss file Hf) as (date & sub & code & -> & _ & Hd & Hc).
    eauto 6.
Qed.

End second_run.

(** C4, the claim as it is written fails: the first run fetches the two
    files of the current day, 2021-02-05; the second run finds them present
    and requests nothing at all, the files of the current day included. *)
Lemma update_contagions_today_not_refetched :
  let env := cont_env [] true in
  let run := Contagions.update_contagions env ["data"%string] feb05 None false in
  let w1 := (run empty_world).1 in
  day_of feb05 = today env ∧
  (run empty_world).2 = Ret tt ∧
  fs w1 !! path_of ["data"%string] feb05 regioni
  = Some (File (Csv sample_table)) ∧
  run w1 = (w1, Ret tt).
Proof. split_and!; vm_compute; reflexivity. Qed.

Lemma update_contagions_second_run_witness :
  let env := cont_env [url_of (path_of ["data"%string] feb05 regioni)] false in
  let w1 := (Contagions.update_contagions env ["data"%string] jan30 None false
               empty_world).1 in
  ∃ again,
    Contagions.update_contagions env ["data"%string] jan30 None false w1
    = (mkWorld (fs w1) (requests w1 ++ (url_of <$> again)), Ret tt) ∧
    (∀ file, file ∈ again ↔
       file ∈ files_of ["data"%string]
                (date_range jan30 (default (Timestamp_now env) None)) ∧
       exists_ (fs w1) file = false) ∧
    (∀ file, file ∈ again →
       ∃ date sub code, file = path_of ["data"%string] date sub ∧
         day_of date = today env ∧
         remote_csv env (url_of file) = HttpFailure code).
Proof.
  apply (update_contagions_second_run
           (cont_env [url_of (path_of ["data"%string] feb05 regioni)] false)
           ["data"%string] jan30 None empty_world);
    [apply cont_env_fair|apply jan30_in_bounds|apply feb05_in_bounds
    |apply surjective_pairing].
Defined.

(** ** The expected files and the calendar *)


(** The file of the date [c] in the subdirectory [sub] of [dir]. *)
Definition file_at (dir : Path) (c : civil) (sub : string) : Path :=
  dir ++ [sub; "dpc-covid19-ita-" +:+ tag sub +:+ "-" +:+ format_Ymd c +:+ ".csv"].

Lemma path_of_file_at dir date sub :
  path_of dir date sub = file_at dir (civil_from_days (day_of date)) sub.
Proof.
  unfold path_of, file_at, joinpath, name_of.
  by rewrite <- (assoc_L (++)), strftime_format.
Qed.




Lemma path_of_inj dir date1 sub1 date2 sub2 :
  -106752 ≤ day_of date1 ≤ 106751 → -106752 ≤ day_of date2 ≤ 106751 →
  path_of dir date1 sub1 = path_of dir date2 sub2 →
  sub1 = sub2 ∧ day_of date1 = day_of date2.
Proof.
  intros H1 H2 H. pose proof (f_equal parent H) as Hpar.
  rewrite !parent_path_of in Hpar. apply joinpath_inj in Hpar as ->.
  split; [done|]. apply joinpath_inj in H as Hname.
  pose proof (date_of_path sub2 date1 H1) as Hp1.
  rewrite Hname, (date_of_path sub2 date2 H2) in Hp1.
  injection Hp1 as Hp1. unfold ns_per_day in Hp1. lia.
Qed.








(** * Further properties of [helpers/download.py] *)

Section contagions_more.
Variable env : Env.

Lemma last_two_path_of dir date sub :
  last_two (path_of dir date sub) = [sub; name_of sub date].
Proof.
  unfold last_two, path_of, joinpath. rewrite <- (assoc_L (++)).
  rewrite length_app. cbn [length app].
  replace (length dir + 2 - 2)%nat with (length dir) by lia.
  by rewrite drop_app_length.
Qed.

(** X1: The URL of an expected file is made of the remote root, the name of the
    subdirectory and the name of the file: the target directory does not
    enter it, so two target directories are served by the same requests. *)
Theorem url_of_expected_file dir dir' date sub :
  url_of (path_of dir date sub)
  = Contagions.remote +:+ "/" +:+ sub +:+ "/" +:+ name_of sub date ∧
  url_of (path_of dir date sub) = url_of (path_of dir' date sub).
Proof.
  unfold url_of. rewrite !last_two_path_of. split; [|done].
  unfold Str.join. cbn [String.concat]. done.
Qed.

(** X2: The name of an expected file gives its day back: what [update] reads
    from the name, after stripping the extension and taking the last eight
    characters, is the midnight of the day the name was made for. *)
Theorem expected_file_date_round_trip sub date :
  in_bounds date →
  parse_Ymd (Str.suffix 8 (Str.rstrip ".csv" (name_of sub date)))
  = Some (normalize (mkTimestamp (value date) false)).
Proof. intros Hb%in_bounds_day. by rewrite date_of_path. Qed.

(** X3: Two expected files are the same file only for the same subdirectory
    and the same day. *)
Theorem expected_file_inj dir date1 sub1 date2 sub2 :
  in_bounds date1 → in_bounds date2 →
  path_of dir date1 sub1 = path_of dir date2 sub2 ↔
  sub1 = sub2 ∧ day_of date1 = day_of date2.
Proof.
  intros H1%in_bounds_day H2%in_bounds_day. split.
  - by apply path_of_inj.
  - intros [-> Hday]. by rewrite !path_of_file_at, Hday.
Qed.

(** X4: Only an HTTP error is passed over for a file of the current day: any
    other failure of the fetch is raised, with nothing written, whatever
    the day of the file. *)
Theorem update_unreachable_raises dir date sub w :
  in_bounds date →
  remote_csv env (url_of (path_of dir date sub)) = Unreachable →
  Contagions.update env (path_of dir date sub) w
  = (requested (url_of (path_of dir date sub)) w,
     Raise (URLError (url_of (path_of dir date sub)))).
Proof.
  intros Hb%in_bounds_day Hrem. by rewrite (update_path_of env _ _ _ _ Hb), Hrem.
Qed.

(** X5: A run changes no path besides the target directory, its two
    subdirectories and the expected files. *)
Theorem update_contagions_touches_own dir start_date end_date force w w' r p :
  fair_pool env →
  Contagions.update_contagions env dir start_date end_date force w = (w', r) →
  p ∉ dir :: subdirs dir →
  p ∉ files_of dir
        (date_range start_date (default (Timestamp_now env) end_date)) →
  fs w' !! p = fs w !! p.
Proof.
  intros Hfair. rewrite update_contagions_unfold.
  destruct (stage dir w) as [w1 [us|e]] eqn:Hstage.
  2:{ intros [= <- <-] Hp _. by apply (stage_inv _ _ _ _ Hstage). }
  destruct (stage_inv _ _ _ _ Hstage) as (_ & _ & Hframe & _).
  intros Hrun Hp Hfiles. rewrite <- (Hframe _ Hp).
  apply (run_calls_frame _ _ _ _ _ _ (update_frame env) Hrun).
  rewrite call_order_perm by done.
  by intros [? _]%elem_of_absent_files.
Qed.

(** X6: A run removes nothing: a path that is there before is there after,
    with [force] or without, whatever the run ends with. *)
Theorem update_contagions_never_removes dir start_date end_date force w w' r
    p :
  Contagions.update_contagions env dir start_date end_date force w = (w', r) →
  is_Some (fs w !! p) → is_Some (fs w' !! p).
Proof.
  rewrite update_contagions_unfold.
  destruct (stage dir w) as [w1 [us|e]] eqn:Hstage.
  2:{ intros [= <- <-] [n Hn]. exists n.
      by apply (stage_inv _ _ _ _ Hstage). }
  destruct (stage_inv _ _ _ _ Hstage) as (_ & Hmono & _).
  intros Hrun [n Hn]. apply (run_calls_exists_mono env _ _ _ _ _ Hrun).
  exists n. by apply Hmono.
Qed.

(** X7: The requests of a run are for expected files only, each at most once
    per entry of the work list and in the order of the calls; without
    [force] none of them is for a file that was there before the run. *)
Theorem update_contagions_requests dir start_date end_date force w w' r :
  fair_pool env →
  Contagions.update_contagions env dir start_date end_date force w = (w', r) →
  ∃ done,
    requests w' = requests w ++ (url_of <$> done) ∧
    ∀ file, file ∈ done →
      file ∈ files_of dir
               (date_range start_date (default (Timestamp_now env) end_date)) ∧
      (force = false → exists_ (fs w) file = false).
Proof.
  intros Hfair. rewrite update_contagions_unfold.
  destruct (stage dir w) as [w1 [us|e]] eqn:Hstage.
  2:{ intros [= <- <-]. exists []. split.
      - destruct (stage_inv _ _ _ _ Hstage) as (-> & _). by rewrite app_nil_r.
      - intros file Hin. by apply elem_of_nil in Hin. }
  destruct (stage_inv _ _ _ _ Hstage) as (Hreq & Hmono & _).
  intros Hrun.
  destruct (run_calls_requests _ _ _ _ _ Hrun) as (done & Hpre & Hr & _).
  exists done. split; [by rewrite Hr, Hreq|].
  intros file Hin. destruct Hpre as [rest Hrest].
  assert (file ∈ call_order env (absent_files force (fs w1)
    (files_of dir (date_range start_date
       (default (Timestamp_now env) end_date))))) as Ho
    by (rewrite Hrest; apply elem_of_app; by left).
  rewrite call_order_perm in Ho by done.
  apply elem_of_absent_files in Ho as [Hf Hex]. split; [done|].
  intros Hforce. specialize (Hex Hforce).
  destruct (exists_ (fs w) file) eqn:Hw; [|done].
  apply (exists_mono _ (fs w1)) in Hw; [congruence|done].
Qed.



End contagions_more.

Ltac decide_by_vm := apply (bool_decide_unpack _); vm_compute; exact I.

Lemma expected_file_date_round_trip_witness :
  parse_Ymd (Str.suffix 8 (Str.rstrip ".csv" (name_of regioni jan30)))
  = Some (normalize (mkTimestamp (value jan30) false)).
Proof.
  apply (expected_file_date_round_trip regioni jan30), jan30_in_bounds.
Defined.

Lemma expected_file_inj_witness :
  path_of ["data"%string] jan30 regioni = path_of ["data"%string] jan30 nazionale
  ↔ regioni = nazionale ∧ day_of jan30 = day_of jan30.
Proof.
  apply (expected_file_inj ["data"%string] jan30 regioni jan30 nazionale);
    apply jan30_in_bounds.
Defined.

Lemma update_unreachable_raises_witness :
  let env := mkEnv (λ _, Unreachable) (λ _, Unreachable) (value feb05) true id in
  Contagions.update env (path_of ["data"%string] feb05 regioni) dirs_world
  = (requested (url_of (path_of ["data"%string] feb05 regioni)) dirs_world,
     Raise (URLError (url_of (path_of ["data"%string] feb05 regioni)))).
Proof.
  apply (update_unreachable_raises
           (mkEnv (λ _, Unreachable) (λ _, Unreachable) (value feb05) true id)
           ["data"%string] feb05 regioni dirs_world);
    [apply feb05_in_bounds|reflexivity].
Defined.

(** A world with a file that is none of the run's. *)
Definition notes_world : World :=
  mkWorld (<[ ["notes.txt"%string] := File (Csv []) ]> (fs staged_world)) [].

Lemma update_contagions_touches_own_witness :
  fs (Contagions.update_contagions (cont_env [] false) ["data"%string] jan30
        (Some jan31) true notes_world).1 !! ["notes.txt"%string]
  = fs notes_world !! ["notes.txt"%string].
Proof.
  apply (update_contagions_touches_own (cont_env [] false) ["data"%string]
           jan30 (Some jan31) true notes_world _
           (Contagions.update_contagions (cont_env [] false) ["data"%string]
              jan30 (Some jan31) true notes_world).2);
    [apply cont_env_fair|apply surjective_pairing|decide_by_vm|decide_by_vm].
Defined.

Lemma update_contagions_never_removes_witness :
  is_Some
    (fs (Contagions.update_contagions (cont_env [first_url] true)
           ["data"%string] jan30 (Some jan31) true notes_world).1
       !! ["notes.txt"%string]).
Proof.
  apply (update_contagions_never_removes (cont_env [first_url] true)
           ["data"%string] jan30 (Some jan31) true notes_world _
           (Contagions.update_contagions (cont_env [first_url] true)
              ["data"%string] jan30 (Some jan31) true notes_world).2);
    [apply surjective_pairing|by eexists].
Defined.

Lemma update_contagions_requests_witness :
  let env := cont_env [first_url] false in
  let run := Contagions.update_contagions env ["data"%string] jan30
               (Some jan31) false staged_world in
  ∃ done,
    requests run.1 = requests staged_world ++ (url_of <$> done) ∧
    ∀ file, file ∈ done →
      file ∈ files_of ["data"%string]
               (date_range jan30 (default (Timestamp_now env) (Some jan31))) ∧
      (false = false → exists_ (fs staged_world) file = false).
Proof.
  apply (update_contagions_requests (cont_env [first_url] false)
           ["data"%string] jan30 (Some jan31) false staged_world _
           (Contagions.update_contagions (cont_env [first_url] false)
              ["data"%string] jan30 (Some jan31) false staged_world).2);
    [apply cont_env_fair|apply surjective_pairing].
Defined.



(** A relation between the file system before and after, kept by every
    run of a computation, whatever its result. *)
Definition keeps {A : Type} (R : relation (gmap Path node)) (m : M A) : Prop :=
  ∀ w w' r, m w = (w', r) → R (fs w) (fs w').

(** The entry at [p] stays as it is. *)
Definition same_at (p : Path) : relation (gmap Path node) :=
  λ f f', f' !! p = f !! p.

(** An entry at [p] stays an entry. *)
Definition stays_at (p : Path) : relation (gmap Path node) :=
  λ f f', is_Some (f !! p) → is_Some (f' !! p).

Global Instance same_at_preorder p : PreOrder (same_at p).
Proof.
  split; [intros f; reflexivity|]. intros f1 f2 f3 H1 H2. unfold same_at in *.
  by rewrite H2.
Qed.

Global Instance stays_at_preorder p : PreOrder (stays_at p).
Proof. split; [intros f H; exact H|]. intros f1 f2 f3 H1 H2 H. auto. Qed.

Lemma keeps_bind {A B : Type} R `{!PreOrder R} (m : M A) (f : A → M B) :
  keeps R m → (∀ a, keeps R (f a)) → keeps R (m ≫= f).
Proof.
  intros Hm Hf w w' r [(w1 & a & H1 & H2)|(e & H1 & _)]%bind_inv.
  - etrans; [by eapply Hm|by eapply Hf].
  - by eapply Hm.
Qed.

Lemma keeps_pure {A : Type} R `{!Reflexive R} (m : M A) :
  (∀ w w' r, m w = (w', r) → fs w' = fs w) → keeps R m.
Proof. intros Hm w w' r H. by rewrite (Hm _ _ _ H). Qed.

Lemma keeps_run_calls R `{!PreOrder R} u l :
  (∀ file, file ∈ l → keeps R (u file)) → keeps R (run_calls u l).
Proof.
  induction l as [|file l IH]; intros Hu.
  - by apply keeps_pure; [apply _|]; intros w w' r [= <- _].
  - cbn [run_calls]. apply keeps_bind; [done| |].
    + apply Hu, list_elem_of_here.
    + intros _. apply IH. intros f Hf. by apply Hu, list_elem_of_further.
Qed.

Lemma name_fs p w w' r : name p w = (w', r) → fs w' = fs w.
Proof. unfold name. by destruct (last p); intros [= <- _]. Qed.

Lemma download_csv_fs env url b w w' r :
  download_csv env url b w = (w', r) → fs w' = fs w.
Proof.
  unfold download_csv. rewrite bind_unfold. cbn [request].
  by destruct (remote_csv env url), b; intros [= <- _].
Qed.

Lemma write_file_stays p c q : keeps (stays_at q) (write_file p c).
Proof.
  intros w w' r [(_ & _ & _ & ->)|(-> & _)]%write_file_inv; [|done].
  cbn [fs]. intros Hq. destruct (decide (p = q)) as [->|Hne].
  - rewrite lookup_insert_eq. eauto.
  - by rewrite lookup_insert_ne.
Qed.

Lemma create_dir_stays dir q : keeps (stays_at q) (create_dir dir).
Proof.
  intros w w' r H [n Hn]. apply create_dir_mono in H as (_ & H & _). eauto.
Qed.

Section vaccinations_more.
Variable env : Env.

(** The URL of a fixed file. *)
Definition vacc_url (s : string) : string :=
  Str.join "/" [Vaccinations.remote; s].

(** A call of [update] on a fixed file: a failure of the fetch is always
    raised. *)
Lemma vacc_update_joinpath dir s w :
  Vaccinations.update env (joinpath dir s) w =
    match remote_csv env (vacc_url s) with
    | Found df => write_file (joinpath dir s) (Csv df) (requested (vacc_url s) w)
    | HttpFailure code =>
        (requested (vacc_url s) w, Raise (RuntimeError (vacc_url s) code))
    | Unreachable => (requested (vacc_url s) w, Raise (URLError (vacc_url s)))
    end.
Proof.
  unfold Vaccinations.update.
  rewrite (bind_Ret _ _ _ _ _ (name_joinpath _ _ _)). fold (vacc_url s).
  unfold download_csv. rewrite !bind_unfold. cbn [request].
  fold (requested (vacc_url s) w).
  by destruct (remote_csv env (vacc_url s)).
Qed.

(** X10: With [force] unset, timestamps of which one carries a time zone and
    the other does not cannot be compared: the call raises [TypeError]
    after the request of the remote marker and writes nothing.  With
    [force] set the comparison is not made and the sync goes on. *)
Theorem update_vaccinations_mixed_timestamps dir force w w1 t_local doc
    t_remote :
  create_dir dir w = (w1, Ret tt) →
  Vaccinations.local_timestamp (marker_file dir) w1 = (w1, Ret t_local) →
  remote_json env marker_url = Found doc →
  ultimo_aggiornamento doc = Some t_remote →
  tz_aware t_remote ≠ tz_aware t_local →
  Vaccinations.update_vaccinations env dir force w =
    if force
    then sync env dir true doc (mkWorld (fs w1) (requests w ++ [marker_url]))
    else (mkWorld (fs w1) (requests w ++ [marker_url]), Raise TypeError).
Proof.
  intros Hdir Hloc Hrem Ht Htz.
  rewrite (update_vaccinations_gate env _ _ _ _ _ _ _ Hdir Hloc Hrem Ht).
  destruct (create_dir_Ret _ _ _ Hdir) as [-> _].
  destruct force.
  - by rewrite (bind_Ret _ _ _ _ _ (gate_open true _ _ _ (or_introl eq_refl))).
  - rewrite bind_unfold. unfold Vaccinations.no_updates, Timestamp_le.
    cbn [negb]. by rewrite (bool_decide_eq_false_2 _ Htz).
Qed.

(** X11: The remote marker is fetched whether [force] is set or not; when it
    cannot be had the call raises the error of the fetch, after that one
    request, and writes nothing. *)
Theorem update_vaccinations_marker_unavailable dir force w w1 t_local :
  create_dir dir w = (w1, Ret tt) →
  Vaccinations.local_timestamp (marker_file dir) w1 = (w1, Ret t_local) →
  (∀ doc, remote_json env marker_url ≠ Found doc) →
  Vaccinations.update_vaccinations env dir force w
  = (mkWorld (fs w1) (requests w ++ [marker_url]),
     Raise match remote_json env marker_url with
           | HttpFailure code => HTTPError marker_url code
           | _ => URLError marker_url
           end).
Proof.
  intros Hdir Hloc Hrem. unfold Vaccinations.update_vaccinations.
  unfold marker_file, marker_url in *.
  rewrite (bind_Ret _ _ _ _ _ Hdir), (bind_Ret _ _ _ _ _ Hloc).
  rewrite (bind_Ret _ _ _ _ _ (name_joinpath _ _ _)).
  destruct (create_dir_Ret _ _ _ Hdir) as [Hreq _].
  unfold Vaccinations.fetch_json. rewrite !bind_unfold. cbn [request].
  rewrite Hreq.
  destruct (remote_json env _) as [doc|code|] eqn:Hj; [|done|done].
  by destruct (Hrem doc).
Qed.




Lemma vacc_update_stays file q : keeps (stays_at q) (Vaccinations.update env file).
Proof.
  unfold Vaccinations.update. apply keeps_bind; [apply _| |intros s].
  { apply keeps_pure; [apply _|apply name_fs]. }
  apply keeps_bind; [apply _| |intros [df|]].
  - apply keeps_pure; [apply _|apply download_csv_fs].
  - apply write_file_stays.
  - by apply keeps_pure; [apply _|]; intros w w' r [= <- _].
Qed.

(** The steps of [update_vaccinations], for a relation kept by the three
    that write. *)
Lemma update_vaccinations_keeps R `{!PreOrder R} dir force :
  keeps R (create_dir dir) →
  (∀ c, keeps R (write_file (marker_file dir) c)) →
  (∀ file, file ∈ data_files dir →
     keeps R (Vaccinations.update env file)) →
  fair_pool env →
  keeps R (Vaccinations.update_vaccinations env dir force).
Proof.
  intros Hdir Hmarker Hfiles Hfair. unfold Vaccinations.update_vaccinations.
  apply keeps_bind; [done|done|intros _].
  apply keeps_bind; [done| |intros t_local].
  { apply keeps_pure; [apply _|]. intros w w' r H.
    by rewrite (local_timestamp_world _ _ _ _ H). }
  apply keeps_bind; [done| |intros s].
  { apply keeps_pure; [apply _|apply name_fs]. }
  apply keeps_bind; [done| |intros doc].
  { apply keeps_pure; [apply _|]. intros w w' r.
    unfold Vaccinations.fetch_json. rewrite bind_unfold. cbn [request].
    by destruct (remote_json env _); intros [= <- _]. }
  apply keeps_bind; [done| |intros t_remote].
  { apply keeps_pure; [apply _|]. intros w w' r.
    unfold marker_timestamp.
    by destruct (ultimo_aggiornamento doc); intros [= <- _]. }
  apply keeps_bind; [done| |intros stop].
  { apply keeps_pure; [apply _|]. intros w w' r.
    unfold Vaccinations.no_updates, Timestamp_le.
    by destruct force; cbn [negb]; [|case_bool_decide]; intros [= <- _]. }
  destruct stop.
  { by apply keeps_pure; [apply _|]; intros w w' r [= <- _]. }
  apply keeps_bind; [done|apply Hmarker|intros _].
  intros w w' r. rewrite (bind_Ret _ _ _ _ _ (vacc_work_list _ _ _)).
  rewrite Parallel_call_order. apply keeps_run_calls; [done|].
  intros file Hin. apply Hfiles.
  rewrite (call_order_perm _ _ Hfair) in Hin.
  by apply elem_of_absent_files in Hin as [Hin _].
Qed.

(** X13: A call of [update_vaccinations] changes nothing besides the directory,
    the marker file and the four data files, whatever its result. *)
Theorem update_vaccinations_touches_own dir force w w' r p :
  fair_pool env →
  Vaccinations.update_vaccinations env dir force w = (w', r) →
  p ≠ dir → p ≠ marker_file dir → p ∉ data_files dir →
  fs w' !! p = fs w !! p.
Proof.
  intros Hfair Hrun Hdir Hmarker Hfiles.
  apply (update_vaccinations_keeps (same_at p) dir force) in Hrun; [done|..].
  - intros w0 w1 r0 H. by apply (create_dir_frame _ _ _ _ _ H).
  - intros c w0 w1 r0 H. by apply (write_file_frame _ _ _ _ _ _ H).
  - intros file Hin w0 w1 r0 H. apply (vacc_update_frame env _ _ _ _ _ H).
    by intros ->.
  - done.
Qed.

(** X14: A call of [update_vaccinations] removes no entry of the file system:
    what was there before is there after, whatever the result. *)
Theorem update_vaccinations_never_removes dir force w w' r p :
  fair_pool env →
  Vaccinations.update_vaccinations env dir force w = (w', r) →
  is_Some (fs w !! p) → is_Some (fs w' !! p).
Proof.
  intros Hfair Hrun.
  apply (update_vaccinations_keeps (stays_at p) dir force) in Hrun; [done|..].
  - apply create_dir_stays.
  - intros c. apply write_file_stays.
  - intros file _. apply vacc_update_stays.
  - done.
Qed.


Lemma paths_names dir (l : list Path) :
  (∀ p, p ∈ l → p ∈ data_files dir) →
  ∃ names : list string, l = joinpath dir <$> names.
Proof.
  induction l as [|p l IH]; intros Hl; [by exists (@nil string)|].
  destruct IH as [names ->].
  { intros q Hq. by apply Hl, list_elem_of_further. }
  pose proof (Hl p (list_elem_of_here _ _)) as Hp.
  apply list_elem_of_fmap in Hp as (s & -> & _). by exists (s :: names).
Qed.


(** A run of [update] over fixed files that returns has found and written
    each of them. *)
Lemma vacc_run_returned dir names w w' s :
  run_calls (Vaccinations.update env) (joinpath dir <$> names) w
  = (w', Ret tt) →
  s ∈ names →
  ∃ df, remote_csv env (vacc_url s) = Found df ∧
        fs w' !! joinpath dir s = Some (File (Csv df)).
Proof.
  revert w. induction names as [|s0 names IH]; intros w Hrun Hs.
  { by apply elem_of_nil in Hs. }
  cbn [fmap list_fmap run_calls] in Hrun.
  apply bind_inv in Hrun as [(w1 & [] & H1 & Hrun)|(e & _ & [=])].
  destruct (decide (s ∈ names)) as [Hin|Hin]; [by apply (IH w1)|].
  apply elem_of_cons in Hs as [->|Hs]; [|done].
  rewrite vacc_update_joinpath in H1.
  destruct (remote_csv env (vacc_url s0)) as [df| |]; [|done|done].
  exists df. split; [done|].
  apply write_file_inv in H1 as [(_ & _ & _ & ->)|(_ & e & [=] & _)].
  rewrite (run_calls_frame _ _ _ _ _ _ (vacc_update_frame env) Hrun).
  - cbn [fs]. by rewrite lookup_insert_eq.
  - intros (s' & Heq & Hs')%list_elem_of_fmap.
    by apply joinpath_inj in Heq as <-.
Qed.

(** X16: A forced call that returns has fetched all four files: each holds its
    remote table.  No file is let go missing, unlike the file of today in
    [update_contagions]. *)
Theorem update_vaccinations_forced_complete dir w w' s :
  fair_pool env →
  Vaccinations.update_vaccinations env dir true w = (w', Ret tt) →
  s ∈ Vaccinations.file_names →
  ∃ df, remote_csv env (vacc_url s) = Found df ∧
        fs w' !! joinpath dir s = Some (File (Csv df)).
Proof.
  intros Hfair Hrun Hs. unfold Vaccinations.update_vaccinations in Hrun.
  apply bind_inv in Hrun as [(w1 & [] & _ & Hrun)|(e & _ & [=])].
  apply bind_inv in Hrun as [(w2 & t_local & _ & Hrun)|(e & _ & [=])].
  apply bind_inv in Hrun as [(w3 & s0 & _ & Hrun)|(e & _ & [=])].
  apply bind_inv in Hrun as [(w4 & doc & _ & Hrun)|(e & _ & [=])].
  apply bind_inv in Hrun as [(w5 & t_remote & _ & Hrun)|(e & _ & [=])].
  apply bind_inv in Hrun as [(w6 & stop & Hstop & Hrun)|(e & _ & [=])].
  injection Hstop as <- <-.
  apply bind_inv in Hrun as [(w7 & [] & _ & Hrun)|(e & _ & [=])].
  rewrite (bind_Ret _ _ _ _ _ (vacc_work_list _ _ _)) in Hrun.
  rewrite Parallel_call_order in Hrun.
  pose proof (call_order_perm env
    (absent_files true (fs w7) (joinpath dir <$> Vaccinations.file_names))
    Hfair) as Hperm.
  destruct (paths_names dir (call_order env
    (absent_files true (fs w7) (joinpath dir <$> Vaccinations.file_names))))
    as [names Hnames].
  { intros p Hp. by rewrite Hperm in Hp. }
  rewrite Hnames in Hrun, Hperm.
  apply (vacc_run_returned _ _ _ _ _ Hrun).
  assert (joinpath dir s ∈ joinpath dir <$> names) as Hin.
  { rewrite Hperm. apply list_elem_of_fmap. eauto. }
  apply list_elem_of_fmap in Hin as (s' & Heq & Hs').
  by apply joinpath_inj in Heq as ->.
Qed.

(** The error of [mkdir] for a directory whose parent is no directory. *)
Definition mkdir_error (f : gmap Path node) (dir : Path) : exn :=
  match stat f (parent dir) with
  | Some (File _) => NotADirectoryError dir
  | _ => FileNotFoundError dir
  end.

(** X18: Both entry points start with [create_dir(dir)]: when [dir] is missing
    and its parent is no directory they raise the error of [mkdir] at once,
    with nothing created and nothing asked of the remote. *)
Theorem entry_points_missing_parent dir start_date end_date force w :
  exists_ (fs w) dir = false →
  stat (fs w) (parent dir) ≠ Some Dir →
  Contagions.update_contagions env dir start_date end_date force w
  = (w, Raise (mkdir_error (fs w) dir)) ∧
  Vaccinations.update_vaccinations env dir force w
  = (w, Raise (mkdir_error (fs w) dir)).
Proof.
  intros Hex Hpar.
  assert (create_dir dir w = (w, Raise (mkdir_error (fs w) dir))) as Hdir.
  { rewrite (create_dir_absent _ _ Hex). unfold mkdir, mkdir_error.
    rewrite bind_unfold. cbn [get_fs]. rewrite Hex.
    by destruct (stat (fs w) (parent dir)) as [[|c]|]. }
  split.
  - unfold Contagions.update_contagions. by rewrite (bind_Raise _ _ _ _ _ Hdir).
  - unfold Vaccinations.update_vaccinations.
    by rewrite (bind_Raise _ _ _ _ _ Hdir).
Qed.

End vaccinations_more.

(** X19: [create_dir] is idempotent: after a call that returned, a second call
    returns and changes nothing. *)
Theorem create_dir_idempotent dir w w1 :
  create_dir dir w = (w1, Ret tt) → create_dir dir w1 = (w1, Ret tt).
Proof.
  intros H. apply create_dir_present.
  by apply (create_dir_mono _ _ _ _ H).
Qed.

(** X20: The pruning loop, [files.remove(file)] for each existing file, never
    raises [ValueError], leaves the world alone and keeps, in the order of
    [files], exactly the files that do not exist; with [force] set nothing
    is pruned.  Both entry points prune alike. *)
Theorem work_list_keeps_absent force files w :
  ∃ l,
    Contagions.work_list force files w = (w, Ret l) ∧
    Vaccinations.work_list force files w = (w, Ret l) ∧
    l `sublist_of` files ∧
    (force = true → l = files) ∧
    ∀ file, file ∈ l ↔
      file ∈ files ∧ (force = false → exists_ (fs w) file = false).
Proof.
  exists (absent_files force (fs w) files).
  split_and!.
  - apply work_list_spec.
  - apply vacc_work_list.
  - unfold absent_files. destruct force; [done|apply sublist_filter].
  - by intros ->.
  - apply elem_of_absent_files.
Qed.

(** *** Runs for the properties of [update_vaccinations] *)

(** A remote marker whose timestamp carries no time zone. *)
Definition naive_marker : Marker :=
  mkMarker (Some (mkTimestamp 1616598812000000000 false)).

(** A remote that has every table and the marker [doc], if any. *)
Definition marker_env (doc : response Marker) : Env :=
  mkEnv (λ _, Found sample_table) (λ _, doc) 1616600000000000000 false reverse.

Lemma marker_env_fair doc : fair_pool (marker_env doc).
Proof. intros l. apply reverse_Permutation. Qed.


Lemma update_vaccinations_mixed_timestamps_witness :
  Vaccinations.update_vaccinations (marker_env (Found naive_marker))
    ["data"%string] false empty_world
  = (mkWorld (fs staged_world) (requests empty_world ++ [marker_url]),
     Raise TypeError).
Proof.
  apply (update_vaccinations_mixed_timestamps
           (marker_env (Found naive_marker)) ["data"%string] false
           empty_world staged_world (mkTimestamp 0 true) naive_marker
           (mkTimestamp 1616598812000000000 false));
    [reflexivity|reflexivity|reflexivity|reflexivity|discriminate].
Defined.

Lemma update_vaccinations_marker_unavailable_witness :
  Vaccinations.update_vaccinations (marker_env (HttpFailure 404))
    ["data"%string] true empty_world
  = (mkWorld (fs staged_world) (requests empty_world ++ [marker_url]),
     Raise (HTTPError marker_url 404)).
Proof.
  apply (update_vaccinations_marker_unavailable
           (marker_env (HttpFailure 404)) ["data"%string] true empty_world
           staged_world (mkTimestamp 0 true));
    [reflexivity|reflexivity|discriminate].
Defined.


Lemma update_vaccinations_touches_own_witness :
  fs (Vaccinations.update_vaccinations (vacc_env platea_url false)
        ["data"%string] false notes_world).1 !! ["notes.txt"%string]
  = fs notes_world !! ["notes.txt"%string].
Proof.
  apply (update_vaccinations_touches_own (vacc_env platea_url false)
           ["data"%string] false notes_world _
           (Vaccinations.update_vaccinations (vacc_env platea_url false)
              ["data"%string] false notes_world).2);
    [apply vacc_env_fair|apply surjective_pairing|decide_by_vm|decide_by_vm
    |decide_by_vm].
Defined.

Lemma update_vaccinations_never_removes_witness :
  is_Some (fs (Vaccinations.update_vaccinations (vacc_env platea_url true)
                 ["data"%string] true notes_world).1
             !! ["notes.txt"%string]).
Proof.
  apply (update_vaccinations_never_removes (vacc_env platea_url true)
           ["data"%string] true notes_world _
           (Vaccinations.update_vaccinations (vacc_env platea_url true)
              ["data"%string] true notes_world).2);
    [apply vacc_env_fair|apply surjective_pairing|by eexists].
Defined.


Lemma update_vaccinations_forced_complete_witness :
  ∃ df,
    remote_csv (marker_env (Found new_marker)) (vacc_url "platea.csv")
    = Found df ∧
    fs (Vaccinations.update_vaccinations (marker_env (Found new_marker))
          ["data"%string] true synced_world).1
      !! joinpath ["data"%string] "platea.csv" = Some (File (Csv df)).
Proof.
  apply (update_vaccinations_forced_complete (marker_env (Found new_marker))
           ["data"%string] synced_world _ "platea.csv");
    [apply marker_env_fair|apply surjective_pairing|decide_by_vm].
Defined.

Lemma entry_points_missing_parent_witness :
  Contagions.update_contagions (marker_env Unreachable) ["a"; "b"]%string
    jan30 (Some jan31) false empty_world
  = (empty_world, Raise (FileNotFoundError ["a"; "b"]%string)) ∧
  Vaccinations.update_vaccinations (marker_env Unreachable) ["a"; "b"]%string
    false empty_world
  = (empty_world, Raise (FileNotFoundError ["a"; "b"]%string)).
Proof.
  apply (entry_points_missing_parent (marker_env Unreachable)
           ["a"; "b"]%string jan30 (Some jan31) false empty_world);
    [reflexivity|discriminate].
Defined.

Lemma create_dir_idempotent_witness :
  create_dir ["data"%string] staged_world = (staged_world, Ret tt).
Proof.
  apply (create_dir_idempotent ["data"%string] empty_world staged_world).
  reflexivity.
Defined.

(** ** [download_csv] *)

(** X21: What a call of [download_csv] can do: it makes its one request and
    leaves the file system alone; it returns a table exactly when the
    remote has one, returns nothing exactly when an HTTP failure meets
    [raise_error] unset, and raises otherwise; an unreachable remote is
    raised whatever [raise_error] says. *)
Theorem download_csv_outcome env url raise_error w w' r :
  download_csv env url raise_error w = (w', r) →
  w' = requested url w ∧
  (∀ df, r = Ret (Some df) ↔ remote_csv env url = Found df) ∧
  (r = Ret None ↔
     raise_error = false ∧ ∃ code, remote_csv env url = HttpFailure code) ∧
  (remote_csv env url = Unreachable → r = Raise (URLError url)).
Proof.
  intros [-> ->]%download_csv_inv. split; [done|].
  destruct (remote_csv env url) as [df0|code|], raise_error;
    split_and!; try done; try (intros df); split; try done;
    try (by intros [= ->]); try (by intros [[=] _]);
    try (by intros [_ [c [=]]]); try (intros _; eauto).
Qed.

Lemma download_csv_outcome_witness :
  let run := download_csv (cont_env [first_url] true) first_url false
               empty_world in
  run.1 = requested first_url empty_world ∧
  (∀ df, run.2 = Ret (Some df) ↔
     remote_csv (cont_env [first_url] true) first_url = Found df) ∧
  (run.2 = Ret None ↔
     false = false ∧
     ∃ code, remote_csv (cont_env [first_url] true) first_url
             = HttpFailure code) ∧
  (remote_csv (cont_env [first_url] true) first_url = Unreachable →
   run.2 = Raise (URLError first_url)).
Proof.
  apply (download_csv_outcome (cont_env [first_url] true) first_url false
           empty_world).
  apply surjective_pairing.
Defined.

Section vaccinations_again.
Variable env : Env.


End vaccinations_again.


(** ** [main.py]: [read_text] *)

Module Main.

Definition newline : string := String "010" EmptyString.

(** [s.strip(cs)] *)
Definition strip (cs s : string) : string := Str.lstrip cs (Str.rstrip cs s).

(** [read_text(path, errors)].  [read path] is what [open(path).read()]
    gives: the text, or the exception of [open] or of [read].  An [errors]
    other than the two known values is taken as ["ignore"]; the bare
    [except] re-raises under ["strict"] and otherwise lets the empty string
    through. *)
Definition read_text (read : Path → res string) (path : Path)
    (errors : string) : res string :=
  let errors :=
    if bool_decide (errors ∈ ["strict"; "ignore"]%string) then errors
    else "ignore"%string in
  match read path with
  | Ret text => Ret (strip newline text)
  | Raise e =>
      if String.eqb errors "strict" then Raise e
      else Ret EmptyString
  end.

End Main.

Lemma mem_newline c : Str.mem c Main.newline = true ↔ c = "010"%char.
Proof.
  unfold Str.mem, Main.newline. rewrite bool_decide_eq_true. cbn.
  by rewrite list_elem_of_singleton.
Qed.

(** What [strip_front] drops is a run of characters of [cs], and what it
    leaves does not start with one. *)
Lemma strip_front_spec cs l :
  ∃ pre, l = pre ++ Str.strip_front cs l ∧
         Forall (λ c, Str.mem c cs = true) pre ∧
         ∀ c, head (Str.strip_front cs l) = Some c → Str.mem c cs = false.
Proof.
  induction l as [|x l (pre & Hl & Hpre & Hhead)]; [by exists []|].
  cbn [Str.strip_front]. destruct (Str.mem x cs) eqn:Hx.
  - exists (x :: pre). split_and!; [by rewrite Hl at 1|by constructor|done].
  - exists []. split_and!; [done|done|]. by intros c [= <-].
Qed.

Lemma last_app_suffix {A} (l1 l2 : list A) x :
  last l2 = Some x → last (l1 ++ l2) = Some x.
Proof.
  intros H. destruct l2 as [|y l2] using rev_ind; [done|].
  rewrite last_snoc in H. injection H as ->.
  by rewrite (assoc_L (++)), last_snoc.
Qed.

(** [strip] drops a run of [cs] at either end and leaves a text that neither
    starts nor ends with a character of [cs]. *)
Lemma strip_spec cs s :
  ∃ pre post,
    Str.chars s = pre ++ Str.chars (Main.strip cs s) ++ post ∧
    Forall (λ c, Str.mem c cs = true) pre ∧
    Forall (λ c, Str.mem c cs = true) post ∧
    (∀ c, head (Str.chars (Main.strip cs s)) = Some c → Str.mem c cs = false) ∧
    (∀ c, last (Str.chars (Main.strip cs s)) = Some c → Str.mem c cs = false).
Proof.
  unfold Main.strip, Str.lstrip, Str.rstrip. rewrite !chars_of_chars.
  destruct (strip_front_spec cs (reverse (Str.chars s)))
    as (post & Hpost & Hpost_cs & Hlast).
  set (r := Str.strip_front cs (reverse (Str.chars s))) in *.
  destruct (strip_front_spec cs (reverse r)) as (pre & Hpre & Hpre_cs & Hhead).
  set (m := Str.strip_front cs (reverse r)) in *.
  exists pre, (reverse post). split_and!.
  - rewrite (assoc_L (++)), <- Hpre, <- reverse_app, <- Hpost.
    by rewrite reverse_involutive.
  - done.
  - by apply Forall_reverse.
  - done.
  - intros c Hc. apply Hlast.
    apply (last_app_suffix pre) in Hc. rewrite <- Hpre in Hc.
    by rewrite last_reverse in Hc.
Qed.

(** X22: [read_text] raises exactly under ["strict"], and then the exception of
    the read: every other value of [errors], unknown ones included, gives a
    string. *)
Theorem read_text_raises_iff_strict read path errors e :
  Main.read_text read path errors = Raise e ↔
  errors = "strict"%string ∧ read path = Raise e.
Proof.
  unfold Main.read_text. destruct (read path) as [text|e0].
  { split; [done|by intros [_ [=]]]. }
  case_bool_decide as Hin.
  - destruct (String.eqb_spec errors "strict") as [->|Hne].
    + split; [by intros [= ->]|by intros [_ [= ->]]].
    + split; [done|by intros [-> _]].
  - split; [done|]. intros [-> _]. destruct Hin. apply list_elem_of_here.
Qed.

(** X23: A text that is read comes back without the newlines at its ends and
    otherwise as it was: it neither starts nor ends with a newline, and the
    text read is it between two runs of newlines. *)
Theorem read_text_strips_newlines read path errors text :
  read path = Ret text →
  ∃ s pre post,
    Main.read_text read path errors = Ret s ∧
    Str.chars text = pre ++ Str.chars s ++ post ∧
    Forall (λ c, c = "010"%char) pre ∧
    Forall (λ c, c = "010"%char) post ∧
    head (Str.chars s) ≠ Some "010"%char ∧
    last (Str.chars s) ≠ Some "010"%char.
Proof.
  intros Hread. unfold Main.read_text. rewrite Hread.
  destruct (strip_spec Main.newline text)
    as (pre & post & Htext & Hpre & Hpost & Hhead & Hlast).
  exists (Main.strip Main.newline text), pre, post.
  split_and!; [done|done| | | |].
  - eapply Forall_impl; [exact Hpre|]. intros c. apply mem_newline.
  - eapply Forall_impl; [exact Hpost|]. intros c. apply mem_newline.
  - intros Hc. apply Hhead in Hc. by rewrite (proj2 (mem_newline _)) in Hc.
  - intros Hc. apply Hlast in Hc. by rewrite (proj2 (mem_newline _)) in Hc.
Qed.

(** X24: A read that fails gives the empty string unless [errors] is
    ["strict"]. *)
Theorem read_text_failure_ignored read path errors e :
  read path = Raise e → errors ≠ "strict"%string →
  Main.read_text read path errors = Ret EmptyString.
Proof.
  intros Hread Hne. unfold Main.read_text. rewrite Hread.
  case_bool_decide; [|done].
  by destruct (String.eqb_spec errors "strict").
Qed.

(** A file system of texts: [title.md] holds a title between newlines. *)
Definition sample_read (path : Path) : res string :=
  if decide (path = ["share"; "dashboard"; "title.md"]%string)
  then Ret (String "010" ("Covid19" +:+ String "010" ("Italia" +:+
              String "010" (String "010" EmptyString))))
  else Raise (FileNotFoundError path).

Lemma read_text_strips_newlines_witness :
  ∃ s pre post,
    Main.read_text sample_read ["share"; "dashboard"; "title.md"]%string
      "ignore" = Ret s ∧
    Str.chars (String "010" ("Covid19" +:+ String "010" ("Italia" +:+
                 String "010" (String "010" EmptyString))))
    = pre ++ Str.chars s ++ post ∧
    Forall (λ c, c = "010"%char) pre ∧
    Forall (λ c, c = "010"%char) post ∧
    head (Str.chars s) ≠ Some "010"%char ∧
    last (Str.chars s) ≠ Some "010"%char.
Proof.
  apply (read_text_strips_newlines sample_read
           ["share"; "dashboard"; "title.md"]%string "ignore").
  reflexivity.
Defined.

Lemma read_text_failure_ignored_witness :
  Main.read_text sample_read ["share"; "dashboard"; "about.md"]%string
    "replace" = Ret EmptyString.
Proof.
  apply (read_text_failure_ignored sample_read
           ["share"; "dashboard"; "about.md"]%string "replace"
           (FileNotFoundError ["share"; "dashboard"; "about.md"]%string));
    [reflexivity|discriminate].
Defined.
